(** * Password-reset service of noddit-server: a shallow embedding

    Source: [src/password-reset/password-reset.service.ts], class
    [PasswordResetService].  The service issues reset tokens
    ([forgotPassword]) and redeems them ([resetPassword]).

    Conventions of the embedding.
    - A JavaScript string is a [string]: the sequence of the bytes of its
      UTF-8 encoding, which is what [Buffer.from] and [Hmac.update] read.
      All strings the service builds itself (hex digests, ISO timestamps)
      are ASCII, where bytes, code points and UTF-16 code units coincide.
    - A byte buffer is a [list Z] of values in [0, 256).
    - The database, the mail transport and the log of calls made to the
      outside are one explicit state, [Sys], threaded through a state and
      exception monad [M].  A thrown exception keeps the state reached so
      far: nothing in the service rolls back.
    - What a call reads from outside the program (the clock, the random
      generator, argon2, failures of the store's writes and of the mail
      transport) is an explicit argument, [Env].  The three queries that
      read the store are modelled as answered. *)

From Stdlib Require Import ZArith List String Ascii Bool Lia PeanoNat.
From Stdlib Require Import DecimalString DecimalPos DecimalZ.
Import ListNotations.
Local Open Scope Z_scope.

(** * SHA-256 and HMAC (Node's [crypto.createHmac('sha256', key)])

    FIPS 180-4 and RFC 2104 over byte lists.  The round constants are
    computed from their definition (fractional parts of the cube and square
    roots of the first primes) and the functions are checked against the
    published test vectors below. *)

Module Sha256.

Definition wrap32 (x : Z) : Z := x mod 2 ^ 32.
Definition rotr (n x : Z) : Z := Z.lor (Z.shiftr x n) (wrap32 (Z.shiftl x (32 - n))).
Definition not32 (x : Z) : Z := Z.lxor x (2 ^ 32 - 1).
Definition Ch (x y z : Z) : Z := Z.lxor (Z.land x y) (Z.land (not32 x) z).
Definition Maj (x y z : Z) : Z := Z.lxor (Z.lxor (Z.land x y) (Z.land x z)) (Z.land y z).
Definition bigSigma0 (x : Z) : Z := Z.lxor (Z.lxor (rotr 2 x) (rotr 13 x)) (rotr 22 x).
Definition bigSigma1 (x : Z) : Z := Z.lxor (Z.lxor (rotr 6 x) (rotr 11 x)) (rotr 25 x).
Definition smallSigma0 (x : Z) : Z := Z.lxor (Z.lxor (rotr 7 x) (rotr 18 x)) (Z.shiftr x 3).
Definition smallSigma1 (x : Z) : Z := Z.lxor (Z.lxor (rotr 17 x) (rotr 19 x)) (Z.shiftr x 10).

Definition isPrime (n : Z) : bool :=
  forallb (fun d => negb (n mod Z.of_nat d =? 0)) (seq 2 (Z.to_nat n - 2)).

(** The first sixty-four primes, 2 .. 311. *)
Definition primes64 : list Z :=
  Eval vm_compute in filter isPrime (map Z.of_nat (seq 2 310)).

Fixpoint cbrtBits (k : nat) (n r : Z) : Z :=
  match k with
  | O => r
  | S k' =>
      let c := r + 2 ^ Z.of_nat k' in
      cbrtBits k' n (if c * c * c <=? n then c else r)
  end.

(** Integer cube root, for arguments below [2 ^ 120]. *)
Definition cbrtFloor (n : Z) : Z := cbrtBits 40 n 0.

Definition K : list Z :=
  Eval vm_compute in map (fun p => wrap32 (cbrtFloor (p * 2 ^ 96))) primes64.

Definition H0 : list Z :=
  Eval vm_compute in map (fun p => wrap32 (Z.sqrt (p * 2 ^ 64))) (firstn 8 primes64).

Definition hstate : Type := Z * Z * Z * Z * Z * Z * Z * Z.

Definition initial : hstate :=
  match H0 with
  | [a; b; c; d; e; f; g; h] => (a, b, c, d, e, f, g, h)
  | _ => (0, 0, 0, 0, 0, 0, 0, 0)
  end.

Fixpoint words (bs : list Z) : list Z :=
  match bs with
  | b0 :: b1 :: b2 :: b3 :: rest =>
      (b0 * 2 ^ 24 + b1 * 2 ^ 16 + b2 * 2 ^ 8 + b3) :: words rest
  | _ => []
  end.

Fixpoint extend (n : nat) (w : list Z) : list Z :=
  match n with
  | O => w
  | S n' =>
      let back i := nth (List.length w - i)%nat w 0 in
      extend n' (w ++ [wrap32 (smallSigma1 (back 2%nat) + back 7%nat
                               + smallSigma0 (back 15%nat) + back 16%nat)])
  end.

Definition round (s : hstate) (kw : Z * Z) : hstate :=
  let '(a, b, c, d, e, f, g, h) := s in
  let t1 := h + bigSigma1 e + Ch e f g + fst kw + snd kw in
  let t2 := bigSigma0 a + Maj a b c in
  (wrap32 (t1 + t2), a, b, c, wrap32 (d + t1), e, f, g).

Definition compress (s : hstate) (block : list Z) : hstate :=
  let '(a, b, c, d, e, f, g, h) :=
    fold_left round (combine K (extend 48 (words block))) s in
  let '(a0, b0, c0, d0, e0, f0, g0, h0) := s in
  (wrap32 (a0 + a), wrap32 (b0 + b), wrap32 (c0 + c), wrap32 (d0 + d),
   wrap32 (e0 + e), wrap32 (f0 + f), wrap32 (g0 + g), wrap32 (h0 + h)).

Definition bigEndian (n : nat) (x : Z) : list Z :=
  map (fun i => (x / 2 ^ (8 * Z.of_nat i)) mod 256) (rev (seq 0 n)).

Definition pad (msg : list Z) : list Z :=
  let n := Z.of_nat (List.length msg) in
  msg ++ [128] ++ repeat 0 (Z.to_nat ((55 - n) mod 64)) ++ bigEndian 8 (8 * n).

Fixpoint blocks (n : nat) (bs : list Z) : list (list Z) :=
  match n with
  | O => []
  | S n' => firstn 64 bs :: blocks n' (skipn 64 bs)
  end.

Definition digestBytes (s : hstate) : list Z :=
  let '(a, b, c, d, e, f, g, h) := s in
  flat_map (bigEndian 4) [a; b; c; d; e; f; g; h].

Definition sha256 (msg : list Z) : list Z :=
  let p := pad msg in
  digestBytes (fold_left compress (blocks (List.length p / 64)%nat p) initial).

Definition blockSize : nat := 64.

Definition hmac (key msg : list Z) : list Z :=
  let k0 := if (blockSize <? List.length key)%nat then sha256 key else key in
  let k := k0 ++ repeat 0 (blockSize - List.length k0)%nat in
  sha256 (map (Z.lxor 92) k ++ sha256 (map (Z.lxor 54) k ++ msg)).

End Sha256.

(** * Buffers and encodings *)

(** [Buffer.from(s)]: the bytes of a string. *)
Definition Buffer_from (s : string) : list Z :=
  map (fun c => Z.of_N (N_of_ascii c)) (list_ascii_of_string s).

Definition hexDigit (d : Z) : ascii :=
  ascii_of_N (Z.to_N (if d <? 10 then 48 + d else 87 + d)).

(** [buf.toString('hex')] and [hmac.digest('hex')]: two lower-case hexadecimal
    digits per byte. *)
Fixpoint toHex (bs : list Z) : string :=
  match bs with
  | [] => EmptyString
  | b :: rest =>
      String (hexDigit (b / 16 mod 16)) (String (hexDigit (b mod 16)) (toHex rest))
  end.

(** Template-literal rendering of a number: [`${resetId}`]. *)
Definition numberToString (n : Z) : string := NilZero.string_of_int (Z.to_int n).

(** JavaScript's [a > b] on two strings: lexicographic order of the code
    units.  The service uses it to compare two ISO-8601 timestamps. *)
Definition string_gt (a b : string) : bool :=
  match String.compare a b with
  | Gt => true
  | _ => false
  end.

(** * ISO-8601 timestamps (luxon's [DateTime.toString()])

    [yyyy-MM-ddTHH:mm:ss.SSS] followed by the zone offset: the civil fields
    on fixed widths, most significant first. *)

Module Iso8601.

Record CivilTime : Type := {
  year : nat; month : nat; day : nat;
  hour : nat; minute : nat; second : nat; millisecond : nat
}.

Definition digit (d : nat) : ascii := ascii_of_nat (48 + d).

(** [n] in decimal on [width] digits, zero-padded. *)
Fixpoint digits (width n : nat) : string :=
  match width with
  | O => EmptyString
  | S w => String (digit (n / 10 ^ w)) (digits w (n mod 10 ^ w))
  end.

Definition toISO (zone : string) (t : CivilTime) : string :=
  (digits 4 (year t) ++ "-" ++ digits 2 (month t) ++ "-" ++ digits 2 (day t) ++ "T"
   ++ digits 2 (hour t) ++ ":" ++ digits 2 (minute t) ++ ":" ++ digits 2 (second t)
   ++ "." ++ digits 3 (millisecond t) ++ zone)%string.

(** Every field fits its width. *)
Definition fits (t : CivilTime) : Prop :=
  (year t < 10 ^ 4 /\ month t < 10 ^ 2 /\ day t < 10 ^ 2 /\ hour t < 10 ^ 2 /\
   minute t < 10 ^ 2 /\ second t < 10 ^ 2 /\ millisecond t < 10 ^ 3)%nat.

Definition thenCompare (c d : comparison) : comparison :=
  match c with
  | Eq => d
  | _ => c
  end.

(** Chronological order of two civil times of one zone. *)
Definition chronological (a b : CivilTime) : comparison :=
  thenCompare (year a ?= year b)%nat
 (thenCompare (month a ?= month b)%nat
 (thenCompare (day a ?= day b)%nat
 (thenCompare (hour a ?= hour b)%nat
 (thenCompare (minute a ?= minute b)%nat
 (thenCompare (second a ?= second b)%nat
              (millisecond a ?= millisecond b)%nat))))).

(** Days from 1970-01-01 to a date of the proleptic Gregorian calendar. *)
Definition daysFromCivil (y m d : Z) : Z :=
  let y' := if m <=? 2 then y - 1 else y in
  let era := y' / 400 in
  let yoe := y' - era * 400 in
  let mp := if 2 <? m then m - 3 else m + 9 in
  let doy := (153 * mp + 2) / 5 + d - 1 in
  let doe := yoe * 365 + yoe / 4 - yoe / 100 + doy in
  era * 146097 + doe - 719468.

(** The instant a civil time denotes in the zone [offset] minutes east of
    UTC, in milliseconds since 1970-01-01T00:00Z. *)
Definition instant (offset : Z) (t : CivilTime) : Z :=
  let days := daysFromCivil (Z.of_nat (year t)) (Z.of_nat (month t)) (Z.of_nat (day t)) in
  let minutes := (days * 24 + Z.of_nat (hour t)) * 60 + Z.of_nat (minute t) - offset in
  (minutes * 60 + Z.of_nat (second t)) * 1000 + Z.of_nat (millisecond t).

(** The offset as [toString()] writes it: [+01:00], [-05:00]. *)
Definition zone (offset : Z) : string :=
  let sign := (if Z.ltb offset 0 then "-" else "+")%string in
  (sign ++ digits 2 (Z.to_nat (Z.abs offset / 60)) ++ ":"
        ++ digits 2 (Z.to_nat (Z.abs offset mod 60)))%string.

End Iso8601.

(** * Exceptions and the state monad *)

Inductive exn : Type :=
| NotFoundException (message : string)
| BadRequestException (message : string)
| ConflictException (message : string)
| InternalServerErrorException
| RangeError (code : string)
| QueryFailedError (code : string)
| LibraryError (name : string)
| TypeError.

(** [err.code]: the property the [catch] block of [forgotPassword] reads. *)
Definition code (err : exn) : option string :=
  match err with
  | RangeError c | QueryFailedError c => Some c
  | _ => None
  end.

Inductive Result (A : Type) : Type :=
| Ok (a : A)
| Throw (err : exn).
Arguments Ok {A} a.
Arguments Throw {A} err.

(** An account row, with the columns the service touches: [user.id],
    [user.email], [user.password] and the soft-delete mark [deletedAt]
    (NULL for a live account). *)
Record UserEntity : Type := {
  u_id : Z;
  u_email : string;
  u_password : string;
  u_deletedAt : option string
}.

(** A row of the reset table, with the fields the service reads:
    [savedReset.id], the column ["userId"] of the delete query ([r_user],
    the key under which [relationUser] loads [reset.user]), [reset.token]
    (the stored digest) and [reset.expiredAt], a string since [isResetValid]
    compares it with [DateTime.local().toString()]. *)
Record PasswordResetEntity : Type := {
  r_id : Z;
  r_user : Z;
  r_token : string;
  r_expiredAt : string
}.

Record Mail : Type := { to : string; subject : string; text : string }.

Record MessageResponse : Type := { message : string }.

(** [ConfigService]: the two keys the service reads. *)
Record Config : Type := { host : string; hmacSecret : string }.

(** Calls that leave the process, in the order they were made. *)
Inductive Event : Type :=
| UserFindOne (email : string)
| ResetSave (userId : Z)
| ResetFindOne (id : Z)
| ClockRead
| UserGetOne (userId : Z)
| Argon2Hash
| UserSave (id : Z)
| SendMail (recipient : string).

Record Sys : Type := {
  users : list UserEntity;
  passwordResets : list PasswordResetEntity;
  nextResetId : Z;
  outbox : list Mail;
  trace : list Event
}.

(** What one request reads from outside the program. *)
Record Env : Type := {
  randomBytes : nat -> list Z;
  localNow : string;
  newExpiry : string;
  argon2 : string -> option string;
  insertFault : option string;
  userSaveFault : option string;
  mailFault : option string
}.

Definition M (A : Type) : Type := Sys -> Result A * Sys.

Definition ret {A : Type} (a : A) : M A := fun s => (Ok a, s).

Definition throw {A : Type} (err : exn) : M A := fun s => (Throw err, s).

Definition bind {A B : Type} (m : M A) (k : A -> M B) : M B :=
  fun s =>
    match m s with
    | (Ok a, s') => k a s'
    | (Throw err, s') => (Throw err, s')
    end.

(** [try { m } catch (err) { handler }] *)
Definition tryCatch {A : Type} (m : M A) (handler : exn -> M A) : M A :=
  fun s =>
    match m s with
    | (Ok a, s') => (Ok a, s')
    | (Throw err, s') => handler err s'
    end.

Definition get : M Sys := fun s => (Ok s, s).

Definition put (s' : Sys) : M unit := fun _ => (Ok tt, s').

Declare Scope monad_scope.
Delimit Scope monad_scope with monad.
Notation "x <- m ;; k" := (bind m (fun x => k))
  (at level 61, m at next level, right associativity) : monad_scope.
Notation "m ;; k" := (bind m (fun _ => k))
  (at level 61, right associativity) : monad_scope.
Local Open Scope monad_scope.

(** [s] after the calls [evs] were made and logged. *)
Definition logged (s : Sys) (evs : list Event) : Sys :=
  {| users := users s; passwordResets := passwordResets s;
     nextResetId := nextResetId s; outbox := outbox s;
     trace := trace s ++ evs |}.

Definition emit (ev : Event) : M unit := fun s => (Ok tt, logged s [ev]).

Definition liftResult {A : Type} (r : Result A) : M A := fun s => (r, s).

(** * Library calls the service makes *)

(** Node's [crypto.timingSafeEqual(a, b)].  Buffers of different byte length
    are refused with a [RangeError] (code ERR_CRYPTO_TIMING_SAFE_EQUAL_LENGTH);
    buffers of the same length are compared without an early exit: the
    differences of all byte pairs are accumulated and tested once. *)
Definition timingSafeEqual (a b : list Z) : Result bool :=
  if (List.length a =? List.length b)%nat
  then Ok (fold_left Z.lor (map (fun p => Z.lxor (fst p) (snd p)) (combine a b)) 0 =? 0)
  else Throw (RangeError "ERR_CRYPTO_TIMING_SAFE_EQUAL_LENGTH").

(** The queries the repositories run, as functions of the tables. *)
Definition userByEmail (email : string) (s : Sys) : option UserEntity :=
  find (fun u => (u_email u =? email)%string) (users s).

Definition activeUserById (userId : Z) (s : Sys) : option UserEntity :=
  find (fun u => (u_id u =? userId) &&
                 match u_deletedAt u with None => true | Some _ => false end)
       (users s).

Definition resetById (id : Z) (s : Sys) : option PasswordResetEntity :=
  find (fun r => r_id r =? id) (passwordResets s).

(** [DateTime.local().toString()] *)
Definition DateTime_local (env : Env) : M string :=
  emit ClockRead ;; ret (localNow env).

(** [userRepository.findOne({ email })].  The query is modelled as answered
    by the store: a query the store rejects (a lost connection) would leave
    the [await] as the driver's own error before anything else is done, and
    is not among the outcomes below. *)
Definition userRepository_findOne (email : string) : M (option UserEntity) :=
  emit (UserFindOne email) ;;
  s <- get ;;
  ret (userByEmail email s).

(** [userRepository.createQueryBuilder('users')
      .where('users.id = :userId', { userId })
      .andWhere('users.deletedAt IS NULL').addSelect('users.password').getOne()],
    modelled as answered by the store, like [userRepository_findOne]. *)
Definition userRepository_getOne (userId : Z) : M (option UserEntity) :=
  emit (UserGetOne userId) ;;
  s <- get ;;
  ret (activeUserById userId s).

(** [userRepository.save(user)]: writes the row whose key is [user.id]. *)
Definition userRepository_save (env : Env) (user : UserEntity) : M unit :=
  emit (UserSave (u_id user)) ;;
  match userSaveFault env with
  | Some c => throw (QueryFailedError c)
  | None =>
      s <- get ;;
      let rows :=
        if existsb (fun u => u_id u =? u_id user) (users s)
        then map (fun u => if u_id u =? u_id user then user else u) (users s)
        else users s ++ [user] in
      put {| users := rows; passwordResets := passwordResets s;
             nextResetId := nextResetId s; outbox := outbox s; trace := trace s |}
  end.

(** [reset.user], the relation as [findOne] loads it with the row: the
    account row the key points to, soft-deleted or not, and [null] ([None])
    when the directory holds no row under that key. *)
Definition relationUser (reset : PasswordResetEntity) (s : Sys) : option UserEntity :=
  find (fun u => u_id u =? r_user reset) (users s).

(** [passwordResetRepository.findOne(id)]: the row and its relation; the
    query is modelled as answered by the store, like [userRepository_findOne]. *)
Definition passwordResetRepository_findOne (id : Z)
  : M (option (PasswordResetEntity * option UserEntity)) :=
  emit (ResetFindOne id) ;;
  s <- get ;;
  ret (match resetById id s with
       | Some reset => Some (reset, relationUser reset s)
       | None => None
       end).

(** [reset.user.id]: reading [id] off a [null] relation throws. *)
Definition relationId (owner : option UserEntity) : M Z :=
  match owner with
  | Some u => ret (u_id u)
  | None => throw TypeError
  end.

(** A row of [userId] that has not expired at [now]. *)
Definition pendingFor (now : string) (userId : Z) (r : PasswordResetEntity) : bool :=
  (r_user r =? userId) && string_gt (r_expiredAt r) now.

Definition hasPending (now : string) (userId : Z) (s : Sys) : bool :=
  existsb (pendingFor now userId) (passwordResets s).

(** [passwordResetRepository.save(reset)] for a new entity.

    Modelled from the spec: the declaration of [PasswordResetEntity]
    (password-reset.entity.ts: its key, its expiry default and its uniqueness
    constraint) is not among the sources.  Following the spec, the store
    assigns [id] and [expiredAt] on creation, and creation is refused with the
    store's uniqueness signal (PostgreSQL's unique_violation, SQLSTATE 23505)
    when the account already has a request that has not expired.  Any other
    failure of the insert is [insertFault].  A refused insert writes nothing. *)
Definition passwordResetRepository_save (env : Env) (userId : Z) (token : string)
  : M PasswordResetEntity :=
  emit (ResetSave userId) ;;
  s <- get ;;
  if hasPending (localNow env) userId s
  then throw (QueryFailedError "23505")
  else
    match insertFault env with
    | Some c => throw (QueryFailedError c)
    | None =>
        let row := {| r_id := nextResetId s; r_user := userId;
                      r_token := token; r_expiredAt := newExpiry env |} in
        put {| users := users s; passwordResets := passwordResets s ++ [row];
               nextResetId := nextResetId s + 1; outbox := outbox s;
               trace := trace s |} ;;
        ret row
    end.

(** [mailerService.sendMail(mail)] *)
Definition sendMail (env : Env) (mail : Mail) : M unit :=
  emit (SendMail (to mail)) ;;
  match mailFault env with
  | Some n => throw (LibraryError n)
  | None =>
      s <- get ;;
      put {| users := users s; passwordResets := passwordResets s;
             nextResetId := nextResetId s; outbox := outbox s ++ [mail];
             trace := trace s |}
  end.

(** argon2's [hash(password)] *)
Definition argon2_hash (env : Env) (password : string) : M string :=
  emit Argon2Hash ;;
  match argon2 env password with
  | Some digest => ret digest
  | None => throw (LibraryError "argon2")
  end.

(** A TypeORM query builder after [.delete()]: the description of a DELETE
    statement.  [QueryBuilder.delete()] returns a [DeleteQueryBuilder];
    the statement is sent to the database by [execute()], which returns the
    promise of the result, as [getOne()] does for the SELECT built in the
    same function.  The builder itself is not a promise. *)
Inductive DeleteQueryBuilder : Type :=
| DeleteWhereUserId (alias : string) (userId : Z).

(** An element of the array given to [Promise.all]: a promise, or a plain
    value, which [Promise.all] passes through as already settled. *)
Inductive Awaitable (A : Type) : Type :=
| APromise (p : M A)
| AValue (v : A).
Arguments APromise {A} p.
Arguments AValue {A} v.

Definition settle {A : Type} (x : Awaitable A) : M A :=
  match x with
  | APromise p => p
  | AValue v => ret v
  end.

(** [await Promise.all([x, y])]: both elements run to their end, and the
    whole rejects when one of them rejects. *)
Definition Promise_all {A B : Type} (x : Awaitable A) (y : Awaitable B) : M (A * B) :=
  fun s =>
    let (rx, s1) := settle x s in
    let (ry, s2) := settle y s1 in
    (match rx, ry with
     | Ok a, Ok b => Ok (a, b)
     | Throw err, _ => Throw err
     | Ok _, Throw err => Throw err
     end, s2).

(** * The service *)

Section PasswordResetService.

Variable configService : Config.

(** [plaintextToken]: [randomBytes(32).toString('hex')] *)
Definition plaintextToken (env : Env) : string := toHex (randomBytes env 32%nat).

(** [url] *)
Definition url (resetId : Z) (token : string) : string :=
  (host configService ++ "/password/reset?id=" ++ numberToString resetId
   ++ "&token=" ++ token)%string.

(** [hashedToken]: HMAC-SHA256 of the token under [hmacSecret], in hex. *)
Definition hashedToken (token : string) : string :=
  toHex (Sha256.hmac (Buffer_from (hmacSecret configService)) (Buffer_from token)).

(** [isResetValid].  [&&] evaluates its right operand, and so reads the clock,
    only when the comparison of the digests returned true. *)
Definition isResetValid (env : Env) (token : string) (reset : PasswordResetEntity)
  : M bool :=
  let hash := hashedToken token in
  same <- liftResult (timingSafeEqual (Buffer_from hash) (Buffer_from (r_token reset))) ;;
  if same
  then now <- DateTime_local env ;; ret (string_gt (r_expiredAt reset) now)
  else ret false.

(** [forgotPassword] *)
Definition forgotPassword (env : Env) (email : string) : M MessageResponse :=
  user <- userRepository_findOne email ;;
  match user with
  | None => throw (NotFoundException "User not found")
  | Some user =>
      let token := plaintextToken env in
      savedReset <-
        tryCatch (passwordResetRepository_save env (u_id user) (hashedToken token))
          (fun err =>
             match code err with
             | Some c =>
                 if (c =? "23505")%string
                 then throw (ConflictException "Password reset email has already been sent")
                 else throw InternalServerErrorException
             | None => throw InternalServerErrorException
             end) ;;
      sendMail env {| to := email; subject := "Reset your password";
                      text := url (r_id savedReset) token |} ;;
      ret {| message := ("Email sent to " ++ u_email user)%string |}
  end.

(** [resetUserPassword] *)
Definition resetUserPassword (env : Env) (user : UserEntity) (password : string)
  : M MessageResponse :=
  digest <- argon2_hash env password ;;
  userRepository_save env {| u_id := u_id user; u_email := u_email user;
                             u_password := digest; u_deletedAt := u_deletedAt user |} ;;
  ret {| message := "Password reset successfully" |}.

(** The one error [resetPassword] raises itself (line 82). *)
Definition InvalidToken : exn := BadRequestException "Invalid password reset token".

(** [resetPassword].  [reset.user.id] (line 77) is read once the request was
    found valid, before the account is fetched.  The second element of the
    array given to [Promise.all] is the builder that [.where(...).delete()]
    returns; [execute()] is not called on it, so it enters [Promise.all] as a
    plain value. *)
Definition resetPassword (env : Env) (id : Z) (token password : string)
  : M MessageResponse :=
  found <- passwordResetRepository_findOne id ;;
  match found with
  | None => throw InvalidToken
  | Some (reset, owner) =>
      valid <- isResetValid env token reset ;;
      if negb valid then throw InvalidToken
      else
        userId <- relationId owner ;;
        user <- userRepository_getOne userId ;;
        match user with
        | None => throw InvalidToken
        | Some user =>
            res <- Promise_all
                     (APromise (resetUserPassword env user password))
                     (AValue (DeleteWhereUserId "passwordreset" userId)) ;;
            sendMail env {| to := u_email user; subject := "Password reset";
                            text := "Your password was successfully reset" |} ;;
            ret {| message := message (fst res) |}
        end
  end.

End PasswordResetService.

(** * Vocabulary of the statements *)

Ltac unfold_monad :=
  unfold bind, ret, throw, get, put, emit, tryCatch, liftResult, settle, Promise_all in *.

(** The tables and the outbox of [s'] are those of [s]: only the log of calls
    may have grown. *)
Definition unchanged (s s' : Sys) : Prop :=
  users s' = users s /\ passwordResets s' = passwordResets s /\
  nextResetId s' = nextResetId s /\ outbox s' = outbox s.

(** Every stored digest has the length of an HMAC-SHA256 digest in hex. *)
Definition digests_wellformed (s : Sys) : Prop :=
  Forall (fun r => String.length (r_token r) = 64%nat) (passwordResets s).

(** The states the two operations can produce, from an empty reset table and
    under any change of the user directory by the rest of the server. *)
Inductive reachable (cfg : Config) : Sys -> Prop :=
| reach_init s :
    passwordResets s = [] -> reachable cfg s
| reach_forgot env email s :
    reachable cfg s -> reachable cfg (snd (forgotPassword cfg env email s))
| reach_reset env id token password s :
    reachable cfg s -> reachable cfg (snd (resetPassword cfg env id token password s))
| reach_directory s directory :
    reachable cfg s ->
    reachable cfg {| users := directory; passwordResets := passwordResets s;
                     nextResetId := nextResetId s; outbox := outbox s;
                     trace := trace s |}.

(** The four causes for which [resetPassword] refuses a request: no row
    under the id, another digest, an expired request, an account whose row is
    there and soft-deleted. *)
Inductive reset_failure (cfg : Config) (env : Env) (s : Sys) (id : Z) (token : string)
  : Prop :=
| no_such_request :
    resetById id s = None -> reset_failure cfg env s id token
| digest_mismatch r :
    resetById id s = Some r -> hashedToken cfg token <> r_token r ->
    reset_failure cfg env s id token
| request_expired r :
    resetById id s = Some r -> string_gt (r_expiredAt r) (localNow env) = false ->
    reset_failure cfg env s id token
| account_deleted r :
    resetById id s = Some r -> relationUser r s <> None ->
    activeUserById (r_user r) s = None ->
    reset_failure cfg env s id token.

(** All strings of a given length, and a family of pairwise distinct strings:
    the two sides of the counting argument on digests. *)
Definition allAscii : list ascii := map ascii_of_nat (seq 0 256).

Fixpoint allStrings (n : nat) : list string :=
  match n with
  | O => [EmptyString]
  | S n' => flat_map (fun c => map (String c) (allStrings n')) allAscii
  end.

Fixpoint filler (k : nat) : string :=
  match k with
  | O => EmptyString
  | S k' => String "a" (filler k')
  end.

(** Lower-case hexadecimal text, the alphabet of [toString('hex')]. *)
Definition isLowerHex (c : ascii) : bool :=
  let n := N_of_ascii c in
  (((48 <=? n) && (n <=? 57)) || ((97 <=? n) && (n <=? 102)))%N.

Definition allLowerHex (x : string) : bool :=
  forallb isLowerHex (list_ascii_of_string x).

(** [c] occurs in [x]. *)
Definition hasChar (c : ascii) (x : string) : Prop := In c (list_ascii_of_string x).

(** The contents of a buffer: every element is a byte. *)
Definition bytes (bs : list Z) : Prop := Forall (fun b => 0 <= b < 256) bs.

(** An account row with another password. *)
Definition withPassword (user : UserEntity) (digest : string) : UserEntity :=
  {| u_id := u_id user; u_email := u_email user; u_password := digest;
     u_deletedAt := u_deletedAt user |}.

(** The mail [resetPassword] sends on success. *)
Definition confirmation (user : UserEntity) : Mail :=
  {| to := u_email user; subject := "Password reset";
     text := "Your password was successfully reset" |}.

(** * A deployment used for the concrete runs *)

Module Scenario.

Definition cfg : Config :=
  {| host := "https://noddit.test"; hmacSecret := "0f5c2a-server-secret" |}.

Definition u1 : UserEntity :=
  {| u_id := 1; u_email := "u1@example.com"; u_password := "$argon2i$old";
     u_deletedAt := None |}.

Definition u2 : UserEntity :=
  {| u_id := 2; u_email := "u2@example.com"; u_password := "$argon2i$u2";
     u_deletedAt := Some "2019-12-24T08:00:00.000+00:00"%string |}.

Definition start : Sys :=
  {| users := [u1; u2]; passwordResets := []; nextResetId := 1; outbox := [];
     trace := [] |}.

(** Ten o'clock: the request is issued, valid for one hour. *)
Definition at10 : Env :=
  {| randomBytes := fun n => map (fun i => Z.of_nat (7 * i + 3) mod 256) (seq 0 n);
     localNow := "2020-01-01T10:00:00.000+00:00";
     newExpiry := "2020-01-01T11:00:00.000+00:00";
     argon2 := fun p => Some ("$argon2i$" ++ p)%string;
     insertFault := None; userSaveFault := None; mailFault := None |}.

(** Half an hour later. *)
Definition at1030 : Env :=
  {| randomBytes := fun n => map (fun i => Z.of_nat (11 * i + 5) mod 256) (seq 0 n);
     localNow := "2020-01-01T10:30:00.000+00:00";
     newExpiry := "2020-01-01T11:30:00.000+00:00";
     argon2 := fun p => Some ("$argon2i$" ++ p)%string;
     insertFault := None; userSaveFault := None; mailFault := None |}.

(** Past the expiry of the first request. *)
Definition at12 : Env :=
  {| randomBytes := fun n => map (fun i => Z.of_nat (13 * i + 1) mod 256) (seq 0 n);
     localNow := "2020-01-01T12:00:00.000+00:00";
     newExpiry := "2020-01-01T13:00:00.000+00:00";
     argon2 := fun p => Some ("$argon2i$" ++ p)%string;
     insertFault := None; userSaveFault := None; mailFault := None |}.

(** Half past twelve. *)
Definition at1230 : Env :=
  {| randomBytes := fun n => map (fun i => Z.of_nat (17 * i + 9) mod 256) (seq 0 n);
     localNow := "2020-01-01T12:30:00.000+00:00";
     newExpiry := "2020-01-01T13:30:00.000+00:00";
     argon2 := fun p => Some ("$argon2i$" ++ p)%string;
     insertFault := None; userSaveFault := None; mailFault := None |}.

(** The mail transport is down. *)
Definition mailDown : Env :=
  {| randomBytes := randomBytes at10; localNow := localNow at10;
     newExpiry := newExpiry at10; argon2 := argon2 at10;
     insertFault := None; userSaveFault := None; mailFault := Some "ECONNREFUSED"%string |}.

(** The store refuses the insert for a reason of its own (here: the
    connection is lost, SQLSTATE 08006). *)
Definition storeDown : Env :=
  {| randomBytes := randomBytes at10; localNow := localNow at10;
     newExpiry := newExpiry at10; argon2 := argon2 at10;
     insertFault := Some "08006"%string; userSaveFault := None; mailFault := None |}.

(** Half past ten, with argon2 failing. *)
Definition argon2Down : Env :=
  {| randomBytes := randomBytes at1030; localNow := localNow at1030;
     newExpiry := newExpiry at1030; argon2 := fun _ => None;
     insertFault := None; userSaveFault := None; mailFault := None |}.

(** Half past ten, with the mail transport down. *)
Definition mailDown1030 : Env :=
  {| randomBytes := randomBytes at1030; localNow := localNow at1030;
     newExpiry := newExpiry at1030; argon2 := argon2 at1030;
     insertFault := None; userSaveFault := None;
     mailFault := Some "ECONNREFUSED"%string |}.

(** The night the clocks go back in London, 25 October 2020: ten to one in
    summer time, a request valid for one hour is issued. *)
Definition summerTime : Env :=
  {| randomBytes := randomBytes at10;
     localNow := "2020-10-25T00:50:00.000+01:00";
     newExpiry := "2020-10-25T01:50:00.000+01:00";
     argon2 := argon2 at10;
     insertFault := None; userSaveFault := None; mailFault := None |}.

(** Eighty minutes later the local clock shows ten past one, winter time. *)
Definition winterTime : Env :=
  {| randomBytes := randomBytes at1030;
     localNow := "2020-10-25T01:10:00.000+00:00";
     newExpiry := "2020-10-25T02:10:00.000+00:00";
     argon2 := argon2 at10;
     insertFault := None; userSaveFault := None; mailFault := None |}.

(** The token mailed at ten o'clock. *)
Definition token10 : string := Eval vm_compute in plaintextToken at10.

(** After [forgotPassword("u1@example.com")] at ten o'clock. *)
Definition issued : Sys :=
  Eval vm_compute in snd (forgotPassword cfg at10 "u1@example.com" start).

(** The first request has expired and a second one was issued at twelve, so
    that the account owns two rows. *)
Definition token12 : string := Eval vm_compute in plaintextToken at12.

Definition issuedTwice : Sys :=
  Eval vm_compute in snd (forgotPassword cfg at12 "u1@example.com" issued).




End Scenario.

(** * Facts about the codec *)

Example sha256_abc :
  toHex (Sha256.sha256 (Buffer_from "abc"))
  = "ba7816bf8f01cfea414140de5dae2223b00361a396177a9cb410ff61f20015ad"%string.
Proof. vm_compute. reflexivity. Qed.

Example sha256_two_blocks :
  toHex (Sha256.sha256
           (Buffer_from "abcdbcdecdefdefgefghfghighijhijkijkljklmklmnlmnomnopnopq"))
  = "248d6a61d20638b8e5c026930c3e6039a33ce45964ff2167f6ecedd419db06c1"%string.
Proof. vm_compute. reflexivity. Qed.

(** RFC 4231, test case 2. *)
Example hmac_rfc4231_2 :
  toHex (Sha256.hmac (Buffer_from "Jefe") (Buffer_from "what do ya want for nothing?"))
  = "5bdcc146bf60754e6a042426089575c75a003f089d2739839dec58b964ec3843"%string.
Proof. vm_compute. reflexivity. Qed.

(** RFC 4231, test case 6: a key longer than a block is hashed first. *)
Example hmac_rfc4231_6 :
  toHex (Sha256.hmac (repeat 170 131)
           (Buffer_from "Test Using Larger Than Block-Size Key - Hash Key First"))
  = "60e431591ee0b67f0d8a26aacbf5b77f8e0bc6213728c5140546040f0ee37f54"%string.
Proof. vm_compute. reflexivity. Qed.

Lemma toHex_length (bs : list Z) :
  String.length (toHex bs) = (2 * List.length bs)%nat.
Proof.
  induction bs as [|b rest IH]; simpl; [reflexivity|].
  rewrite IH. lia.
Qed.

Lemma digestBytes_length (s : Sha256.hstate) :
  List.length (Sha256.digestBytes s) = 32%nat.
Proof.
  destruct s as [[[[[[[a b] c] d] e] f] g] h]. reflexivity.
Qed.

Lemma hmac_length (key msg : list Z) :
  List.length (Sha256.hmac key msg) = 32%nat.
Proof.
  unfold Sha256.hmac, Sha256.sha256. apply digestBytes_length.
Qed.

Lemma hashedToken_length (cfg : Config) (token : string) :
  String.length (hashedToken cfg token) = 64%nat.
Proof.
  unfold hashedToken. rewrite toHex_length, hmac_length. reflexivity.
Qed.

Lemma Buffer_from_length (s : string) :
  List.length (Buffer_from s) = String.length s.
Proof.
  unfold Buffer_from. rewrite length_map.
  induction s as [|c s IH]; simpl; congruence.
Qed.

Lemma Buffer_from_inj (a b : string) :
  Buffer_from a = Buffer_from b -> a = b.
Proof.
  unfold Buffer_from. revert b.
  induction a as [|c a IH]; intros [|d b] E; simpl in E; try discriminate.
  - reflexivity.
  - injection E as Ecd Eab.
    apply N2Z.inj in Ecd.
    assert (c = d) by (rewrite <- (ascii_N_embedding c), <- (ascii_N_embedding d); congruence).
    f_equal; auto.
Qed.

Lemma fold_lor_zero (l : list Z) (acc : Z) :
  fold_left Z.lor l acc = 0 <-> acc = 0 /\ Forall (fun x => x = 0) l.
Proof.
  revert acc. induction l as [|x l IH]; intros acc; simpl.
  - split; [intros ->; auto | tauto].
  - rewrite IH, Z.lor_eq_0_iff. split.
    + intros [[-> ->] Hl]. auto.
    + intros [-> Hl]. inversion Hl; subst. auto.
Qed.

Lemma xor_pairs_zero (a b : list Z) :
  List.length a = List.length b ->
  Forall (fun x => x = 0) (map (fun p => Z.lxor (fst p) (snd p)) (combine a b)) <-> a = b.
Proof.
  revert b. induction a as [|x a IH]; intros [|y b] L; simpl in *; try discriminate.
  - split; auto.
  - injection L as L. split.
    + intros H. inversion H as [|? ? Hxy Hrest]; subst.
      apply Z.lxor_eq in Hxy. apply IH in Hrest; auto. congruence.
    + intros E. injection E as -> ->. constructor.
      * apply Z.lxor_nilpotent.
      * apply IH; auto.
Qed.

(** On buffers of one length [timingSafeEqual] decides equality. *)
Lemma timingSafeEqual_same_length (a b : list Z) :
  List.length a = List.length b ->
  timingSafeEqual a b = Ok (if list_eq_dec Z.eq_dec a b then true else false).
Proof.
  intros L. unfold timingSafeEqual.
  rewrite (proj2 (Nat.eqb_eq _ _) L). f_equal.
  destruct (list_eq_dec Z.eq_dec a b) as [E|N].
  - apply Z.eqb_eq, fold_lor_zero. split; [reflexivity|]. apply xor_pairs_zero; auto.
  - apply Z.eqb_neq. intros H. apply fold_lor_zero in H as [_ H].
    apply xor_pairs_zero in H; auto.
Qed.

Lemma timingSafeEqual_other_length (a b : list Z) :
  List.length a <> List.length b ->
  timingSafeEqual a b = Throw (RangeError "ERR_CRYPTO_TIMING_SAFE_EQUAL_LENGTH").
Proof.
  intros L. unfold timingSafeEqual.
  rewrite (proj2 (Nat.eqb_neq _ _) L). reflexivity.
Qed.

(** The comparison of a recomputed digest with a stored one. *)
Lemma compare_digests (hash stored : string) :
  timingSafeEqual (Buffer_from hash) (Buffer_from stored) =
  if (String.length hash =? String.length stored)%nat
  then Ok (hash =? stored)%string
  else Throw (RangeError "ERR_CRYPTO_TIMING_SAFE_EQUAL_LENGTH").
Proof.
  destruct (Nat.eqb_spec (String.length hash) (String.length stored)) as [L|L].
  - rewrite timingSafeEqual_same_length by (rewrite !Buffer_from_length; exact L).
    f_equal.
    destruct (list_eq_dec Z.eq_dec (Buffer_from hash) (Buffer_from stored)) as [E|N].
    + apply Buffer_from_inj in E. subst. symmetry. apply String.eqb_refl.
    + symmetry. apply String.eqb_neq. intros ->. apply N. reflexivity.
  - apply timingSafeEqual_other_length. rewrite !Buffer_from_length. exact L.
Qed.

(** * Order of ISO timestamps *)

Example toISO_eleven :
  Iso8601.toISO "+00:00"
    {| Iso8601.year := 2020; Iso8601.month := 1; Iso8601.day := 1;
       Iso8601.hour := 11; Iso8601.minute := 0; Iso8601.second := 0;
       Iso8601.millisecond := 0 |}
  = "2020-01-01T11:00:00.000+00:00"%string.
Proof. reflexivity. Qed.

Lemma digit_compare (d e : nat) :
  (d < 10)%nat -> (e < 10)%nat ->
  Ascii.compare (Iso8601.digit d) (Iso8601.digit e) = (d ?= e)%nat.
Proof.
  intros Hd He. unfold Ascii.compare, Iso8601.digit, ascii_of_nat.
  rewrite !N_ascii_embedding by lia.
  destruct (Nat.compare_spec d e),
    (N.compare_spec (N.of_nat (48 + d)) (N.of_nat (48 + e))); try reflexivity; lia.
Qed.

Lemma digits_length (w n : nat) : String.length (Iso8601.digits w n) = w.
Proof.
  revert n. induction w as [|w IH]; intros n; simpl; [reflexivity|].
  rewrite IH. reflexivity.
Qed.

Lemma compare_by_quotient (p n m : nat) :
  (0 < p)%nat ->
  (n ?= m)%nat = Iso8601.thenCompare (n / p ?= m / p)%nat (n mod p ?= m mod p)%nat.
Proof.
  intros Hp.
  pose proof (Nat.div_mod_eq n p) as En. pose proof (Nat.div_mod_eq m p) as Em.
  pose proof (Nat.mod_upper_bound n p ltac:(lia)) as Bn.
  pose proof (Nat.mod_upper_bound m p ltac:(lia)) as Bm.
  unfold Iso8601.thenCompare.
  destruct (Nat.compare_spec (n / p) (m / p)) as [E|L|G].
  - destruct (Nat.compare_spec (n mod p) (m mod p));
      destruct (Nat.compare_spec n m); try reflexivity; nia.
  - destruct (Nat.compare_spec n m); try reflexivity; nia.
  - destruct (Nat.compare_spec n m); try reflexivity; nia.
Qed.

(** Zero-padded numbers of one width are ordered as numbers. *)
Lemma digits_compare (w n m : nat) :
  (n < 10 ^ w)%nat -> (m < 10 ^ w)%nat ->
  String.compare (Iso8601.digits w n) (Iso8601.digits w m) = (n ?= m)%nat.
Proof.
  revert n m. induction w as [|w IH]; intros n m Hn Hm.
  - simpl in *. assert (n = 0%nat) by lia. assert (m = 0%nat) by lia.
    subst. reflexivity.
  - assert (Hp : (0 < 10 ^ w)%nat)
      by (apply Nat.neq_0_lt_0, Nat.pow_nonzero; discriminate).
    cbn [Iso8601.digits String.compare].
    rewrite Nat.pow_succ_r' in Hn, Hm.
    rewrite digit_compare by (apply Nat.Div0.div_lt_upper_bound; lia).
    rewrite IH by (apply Nat.mod_upper_bound; lia).
    rewrite (compare_by_quotient (10 ^ w) n m Hp). unfold Iso8601.thenCompare.
    destruct (n / 10 ^ w ?= m / 10 ^ w)%nat; reflexivity.
Qed.

Lemma compare_append (a b x y : string) :
  String.length a = String.length b ->
  String.compare (a ++ x) (b ++ y)
  = Iso8601.thenCompare (String.compare a b) (String.compare x y).
Proof.
  revert b. induction a as [|c a IH]; intros [|d b] L; simpl in L; try discriminate.
  - reflexivity.
  - injection L as L. cbn [append String.compare Iso8601.thenCompare].
    destruct (Ascii.compare c d); try reflexivity. apply IH. exact L.
Qed.

Lemma compare_same (x : string) : String.compare x x = Eq.
Proof.
  induction x as [|c x IH]; simpl; [reflexivity|].
  unfold Ascii.compare. rewrite N.compare_refl. exact IH.
Qed.

(** On two renderings in one zone, the order of the strings is the
    chronological order. *)
Lemma toISO_compare (zone : string) (a b : Iso8601.CivilTime) :
  Iso8601.fits a -> Iso8601.fits b ->
  String.compare (Iso8601.toISO zone a) (Iso8601.toISO zone b)
  = Iso8601.chronological a b.
Proof.
  intros (Ay & Amo & Ad & Ah & Ami & As & Ams) (By & Bmo & Bd & Bh & Bmi & Bs & Bms).
  unfold Iso8601.toISO, Iso8601.chronological.
  repeat (rewrite compare_append by (rewrite ?digits_length; reflexivity);
          rewrite ?digits_compare by assumption;
          rewrite ?compare_same; cbn [Iso8601.thenCompare]; f_equal).
  destruct (Iso8601.millisecond a ?= Iso8601.millisecond b)%nat; reflexivity.
Qed.

(** [expiredAt > now] holds exactly when the expiry is chronologically later
    than now, both being renderings in one zone. *)
Lemma string_gt_toISO (zone : string) (a b : Iso8601.CivilTime) :
  Iso8601.fits a -> Iso8601.fits b ->
  string_gt (Iso8601.toISO zone a) (Iso8601.toISO zone b) = true
  <-> Iso8601.chronological a b = Gt.
Proof.
  intros Fa Fb. unfold string_gt. rewrite (toISO_compare zone a b Fa Fb).
  destruct (Iso8601.chronological a b); split; intros H; try reflexivity;
    discriminate H.
Qed.

(** * Running the monad *)

Lemma logged_logged (s : Sys) (a b : list Event) :
  logged (logged s a) b = logged s (a ++ b).
Proof.
  unfold logged. simpl. rewrite <- app_assoc. reflexivity.
Qed.

Lemma unchanged_logged (s : Sys) (evs : list Event) : unchanged s (logged s evs).
Proof.
  repeat split.
Qed.

Lemma userByEmail_absent (email : string) (s : Sys) :
  (forall u, In u (users s) -> u_email u <> email) -> userByEmail email s = None.
Proof.
  intros H. unfold userByEmail.
  destruct (find _ (users s)) as [u|] eqn:F; [|reflexivity].
  apply find_some in F as [Hin Heq].
  apply String.eqb_eq in Heq. exfalso. exact (H u Hin Heq).
Qed.


(** * The issuer *)

(** C8.  When the user directory holds no account for the e-mail address,
    [forgotPassword] fails with NotFound ("User not found"); the tables and
    the outbox are left as they were, and the only call made to the outside
    is the directory lookup: no reset request is created and no mail is
    sent. *)
Theorem forgotPassword_unknown_email (cfg : Config) (env : Env) (email : string) (s : Sys) :
  (forall u, In u (users s) -> u_email u <> email) ->
  let out := forgotPassword cfg env email s in
  fst out = Throw (NotFoundException "User not found") /\
  unchanged s (snd out) /\
  trace (snd out) = trace s ++ [UserFindOne email].
Proof.
  intros Habsent out. subst out.
  unfold forgotPassword, userRepository_findOne. unfold_monad.
  assert (E : userByEmail email (logged s [UserFindOne email]) = None)
    by (apply userByEmail_absent; exact Habsent).
  rewrite E. simpl. repeat split.
Qed.

Lemma forgotPassword_unknown_email_witness :
  fst (forgotPassword Scenario.cfg Scenario.at10 "nobody@example.com" Scenario.start)
  = Throw (NotFoundException "User not found") /\
  passwordResets
    (snd (forgotPassword Scenario.cfg Scenario.at10 "nobody@example.com" Scenario.start))
  = [].
Proof.
  destruct (forgotPassword_unknown_email Scenario.cfg Scenario.at10
              "nobody@example.com" Scenario.start) as (R & (_ & T & _) & _).
  - intros u [<-|[<-|[]]]; discriminate.
  - split; [exact R | exact T].
Defined.



(** C9.  When the row was saved (no pending request, no failure of the
    insert) and the mail transport then fails, [forgotPassword] surfaces the
    transport's error, and the saved row stays in the table exactly as it was
    written: nothing deletes or rolls it back. *)
Theorem forgotPassword_mail_failure_keeps_row
  (cfg : Config) (env : Env) (email : string) (s : Sys) (u : UserEntity) (n : string) :
  userByEmail email s = Some u ->
  hasPending (localNow env) (u_id u) s = false ->
  insertFault env = None ->
  mailFault env = Some n ->
  let out := forgotPassword cfg env email s in
  let row := {| r_id := nextResetId s; r_user := u_id u;
                r_token := hashedToken cfg (plaintextToken env);
                r_expiredAt := newExpiry env |} in
  fst out = Throw (LibraryError n) /\
  passwordResets (snd out) = passwordResets s ++ [row] /\
  users (snd out) = users s /\
  outbox (snd out) = outbox s.
Proof.
  intros Hu Hfree Hins Hmail out row. subst out row.
  unfold forgotPassword, userRepository_findOne, passwordResetRepository_save, sendMail.
  unfold_monad.
  assert (E : userByEmail email (logged s [UserFindOne email]) = Some u) by exact Hu.
  rewrite E.
  assert (P : hasPending (localNow env) (u_id u)
                (logged (logged s [UserFindOne email]) [ResetSave (u_id u)]) = false)
    by exact Hfree.
  rewrite P, Hins. simpl. rewrite Hmail. simpl. repeat split.
Qed.

Lemma forgotPassword_mail_failure_keeps_row_witness :
  fst (forgotPassword Scenario.cfg Scenario.mailDown "u1@example.com" Scenario.start)
  = Throw (LibraryError "ECONNREFUSED") /\
  passwordResets
    (snd (forgotPassword Scenario.cfg Scenario.mailDown "u1@example.com" Scenario.start))
  = passwordResets Scenario.issued.
Proof.
  destruct (forgotPassword_mail_failure_keeps_row Scenario.cfg Scenario.mailDown
              "u1@example.com" Scenario.start Scenario.u1 "ECONNREFUSED")
    as (R & T & _).
  - reflexivity.
  - reflexivity.
  - reflexivity.
  - reflexivity.
  - split; [exact R |]. rewrite T. vm_compute. reflexivity.
Defined.

(** * The redeemer *)

Lemma bind_run {A B : Type} (m : M A) (k : A -> M B) (s : Sys) :
  bind m k s =
  match m s with
  | (Ok a, s') => k a s'
  | (Throw err, s') => (Throw err, s')
  end.
Proof. reflexivity. Qed.

Lemma ret_run {A : Type} (a : A) (s : Sys) : ret a s = (Ok a, s).
Proof. reflexivity. Qed.

Lemma passwordResetRepository_findOne_run (id : Z) (s : Sys) :
  passwordResetRepository_findOne id s
  = (Ok (match resetById id s with
         | Some reset => Some (reset, relationUser reset s)
         | None => None
         end), logged s [ResetFindOne id]).
Proof. reflexivity. Qed.

Lemma relationUser_id (r : PasswordResetEntity) (s : Sys) (owner : UserEntity) :
  relationUser r s = Some owner -> u_id owner = r_user r.
Proof.
  unfold relationUser. intros F. apply find_some in F as [_ E].
  apply Z.eqb_eq. exact E.
Qed.

(** An account that the query of lines 75-80 finds has a row, so the
    relation is not null. *)
Lemma relationUser_of_active (r : PasswordResetEntity) (s : Sys) (user : UserEntity) :
  activeUserById (r_user r) s = Some user -> relationUser r s <> None.
Proof.
  unfold activeUserById, relationUser. intros F N.
  apply find_some in F as [Hin Hp]. apply andb_prop in Hp as [Hid _].
  pose proof (find_none _ _ N user Hin) as C. cbv beta in C.
  rewrite Hid in C. discriminate C.
Qed.

Lemma userRepository_getOne_run (userId : Z) (s : Sys) :
  userRepository_getOne userId s
  = (Ok (activeUserById userId s), logged s [UserGetOne userId]).
Proof. reflexivity. Qed.

(** [isResetValid] in closed form: a stored digest of another length than the
    recomputed one makes [timingSafeEqual] throw; the clock is read only
    after the digests were found equal. *)
Lemma isResetValid_run (cfg : Config) (env : Env) (token : string)
  (r : PasswordResetEntity) (s : Sys) :
  isResetValid cfg env token r s =
  if (64 =? String.length (r_token r))%nat
  then if (hashedToken cfg token =? r_token r)%string
       then (Ok (string_gt (r_expiredAt r) (localNow env)), logged s [ClockRead])
       else (Ok false, s)
  else (Throw (RangeError "ERR_CRYPTO_TIMING_SAFE_EQUAL_LENGTH"), s).
Proof.
  unfold isResetValid, DateTime_local. unfold_monad.
  rewrite compare_digests, hashedToken_length.
  destruct (64 =? String.length (r_token r))%nat; [|reflexivity].
  destruct (hashedToken cfg token =? r_token r)%string; reflexivity.
Qed.

(** The decision of [resetPassword], check by check, with the calls made to
    the outside at each exit; past the last check, lines 85-99 of the source
    run. *)
Lemma resetPassword_cases (cfg : Config) (env : Env) (id : Z) (token password : string)
  (s : Sys) :
  let out := resetPassword cfg env id token password s in
  match resetById id s with
  | None => out = (Throw InvalidToken, logged s [ResetFindOne id])
  | Some r =>
      if (64 =? String.length (r_token r))%nat
      then
        if (hashedToken cfg token =? r_token r)%string
        then
          if string_gt (r_expiredAt r) (localNow env)
          then
            match relationUser r s with
            | None => out = (Throw TypeError, logged s [ResetFindOne id; ClockRead])
            | Some _ =>
                let s3 :=
                  logged s [ResetFindOne id; ClockRead; UserGetOne (r_user r)] in
                match activeUserById (r_user r) s with
                | None => out = (Throw InvalidToken, s3)
                | Some user =>
                    out =
                    (res <- Promise_all
                              (APromise (resetUserPassword env user password))
                              (AValue (DeleteWhereUserId "passwordreset" (r_user r))) ;;
                     sendMail env {| to := u_email user; subject := "Password reset";
                                     text := "Your password was successfully reset" |} ;;
                     ret {| message := message (fst res) |}) s3
                end
            end
          else out = (Throw InvalidToken, logged s [ResetFindOne id; ClockRead])
        else out = (Throw InvalidToken, logged s [ResetFindOne id])
      else out = (Throw (RangeError "ERR_CRYPTO_TIMING_SAFE_EQUAL_LENGTH"),
                  logged s [ResetFindOne id])
  end.
Proof.
  intros out. subst out.
  unfold resetPassword.
  rewrite bind_run, passwordResetRepository_findOne_run.
  destruct (resetById id s) as [r|]; [|reflexivity].
  rewrite bind_run, isResetValid_run.
  destruct (64 =? String.length (r_token r))%nat; [|reflexivity].
  destruct (hashedToken cfg token =? r_token r)%string; [|reflexivity].
  rewrite logged_logged.
  destruct (string_gt (r_expiredAt r) (localNow env)); [|reflexivity].
  cbn [negb app].
  destruct (relationUser r s) as [owner|] eqn:O; [|reflexivity].
  rewrite bind_run. cbn [relationId]. rewrite ret_run.
  rewrite (relationUser_id r s owner O).
  rewrite bind_run, userRepository_getOne_run, logged_logged.
  change (activeUserById (r_user r) (logged s _)) with (activeUserById (r_user r) s).
  cbn [app].
  destruct (activeUserById (r_user r) s) as [user|]; reflexivity.
Qed.

(** A request that passes the four checks reaches lines 85-99. *)
Lemma resetPassword_passes (cfg : Config) (env : Env) (id : Z) (token password : string)
  (s : Sys) (r : PasswordResetEntity) (user : UserEntity) :
  resetById id s = Some r ->
  hashedToken cfg token = r_token r ->
  string_gt (r_expiredAt r) (localNow env) = true ->
  activeUserById (r_user r) s = Some user ->
  resetPassword cfg env id token password s
  = (res <- Promise_all (APromise (resetUserPassword env user password))
              (AValue (DeleteWhereUserId "passwordreset" (r_user r))) ;;
     sendMail env (confirmation user) ;;
     ret {| message := message (fst res) |})
      (logged s [ResetFindOne id; ClockRead; UserGetOne (r_user r)]).
Proof.
  intros L D X A.
  pose proof (resetPassword_cases cfg env id token password s) as C. cbv zeta in C.
  rewrite L, <- D, hashedToken_length, Nat.eqb_refl, String.eqb_refl, X in C.
  pose proof (relationUser_of_active r s user A) as O.
  destruct (relationUser r s) as [owner|]; [|contradiction].
  rewrite A in C. exact C.
Qed.

Section Redemption.

Variables (env : Env) (user : UserEntity) (password : string).
Variables (query : DeleteQueryBuilder) (mail : Mail) (s : Sys).

Let redemption : Result MessageResponse * Sys :=
  (res <- Promise_all (APromise (resetUserPassword env user password)) (AValue query) ;;
   sendMail env mail ;;
   ret {| message := message (fst res) |}) s.

Ltac run_redemption :=
  subst redemption;
  unfold resetUserPassword, argon2_hash, userRepository_save, sendMail;
  unfold_monad; simpl;
  destruct (argon2 env password); simpl;
  destruct (userSaveFault env); simpl;
  destruct (mailFault env); simpl.

(** Whatever the outcome, the reset table is the one the call started from:
    the DELETE statement is built and never sent. *)
Lemma redemption_keeps_requests :
  passwordResets (snd redemption) = passwordResets s /\
  nextResetId (snd redemption) = nextResetId s.
Proof. run_redemption; split; reflexivity. Qed.

Lemma redemption_not_bad_request (m : string) :
  fst redemption <> Throw (BadRequestException m).
Proof. run_redemption; discriminate. Qed.

Lemma redemption_trace :
  exists rest, trace (snd redemption) = trace s ++ rest.
Proof.
  run_redemption; rewrite <- ?app_assoc; eexists; reflexivity.
Qed.

(** A failed password update (argon2 or the write of the account row)
    rejects [Promise.all]: the call fails and no confirmation is mailed. *)
Lemma redemption_update_failure :
  argon2 env password = None \/ userSaveFault env <> None ->
  exists err, fst redemption = Throw err /\
              users (snd redemption) = users s /\
              outbox (snd redemption) = outbox s.
Proof.
  intros H. run_redemption;
    try (destruct H as [H|H]; [discriminate H | exfalso; apply H; reflexivity]);
    eexists; repeat split.
Qed.

End Redemption.

Lemma wellformed_lookup (s : Sys) (id : Z) (r : PasswordResetEntity) :
  digests_wellformed s -> resetById id s = Some r ->
  (64 =? String.length (r_token r))%nat = true.
Proof.
  intros W F. unfold resetById in F. apply find_some in F as [Hin _].
  unfold digests_wellformed in W. rewrite Forall_forall in W.
  rewrite (W r Hin). reflexivity.
Qed.

(** [resetPassword] never writes the reset table. *)
Lemma resetPassword_keeps_requests (cfg : Config) (env : Env) (id : Z)
  (token password : string) (s : Sys) :
  passwordResets (snd (resetPassword cfg env id token password s)) = passwordResets s.
Proof.
  pose proof (resetPassword_cases cfg env id token password s) as C. cbv zeta in C.
  destruct (resetById id s) as [r|]; [|rewrite C; reflexivity].
  destruct (64 =? String.length (r_token r))%nat; [|rewrite C; reflexivity].
  destruct (hashedToken cfg token =? r_token r)%string; [|rewrite C; reflexivity].
  destruct (string_gt (r_expiredAt r) (localNow env)); [|rewrite C; reflexivity].
  destruct (relationUser r s) as [owner|]; [|rewrite C; reflexivity].
  destruct (activeUserById (r_user r) s) as [user|]; rewrite C; [|reflexivity].
  exact (proj1 (redemption_keeps_requests env user password _ _ (logged s _))).
Qed.

(** C10.  Whenever [resetPassword] fails with the generic InvalidToken error,
    the account rows (so every password), the reset table and the outbox are
    exactly those the call started from: nothing was written, nothing was
    deleted, no mail was sent. *)
Theorem resetPassword_invalid_token_no_effect
  (cfg : Config) (env : Env) (id : Z) (token password : string) (s : Sys) :
  let out := resetPassword cfg env id token password s in
  fst out = Throw InvalidToken -> unchanged s (snd out).
Proof.
  intros out. subst out.
  pose proof (resetPassword_cases cfg env id token password s) as C. cbv zeta in C.
  destruct (resetById id s) as [r|]; [|rewrite C; intros _; apply unchanged_logged].
  destruct (64 =? String.length (r_token r))%nat;
    [|rewrite C; intros _; apply unchanged_logged].
  destruct (hashedToken cfg token =? r_token r)%string;
    [|rewrite C; intros _; apply unchanged_logged].
  destruct (string_gt (r_expiredAt r) (localNow env));
    [|rewrite C; intros _; apply unchanged_logged].
  destruct (relationUser r s) as [owner|];
    [|rewrite C; intros _; apply unchanged_logged].
  destruct (activeUserById (r_user r) s) as [user|];
    rewrite C; [|intros _; apply unchanged_logged].
  intros H. exfalso. revert H. apply redemption_not_bad_request.
Qed.

Lemma resetPassword_invalid_token_no_effect_witness :
  unchanged Scenario.issued
    (snd (resetPassword Scenario.cfg Scenario.at1030 1 "not-the-token" "NewPass123!"
            Scenario.issued)).
Proof.
  apply (resetPassword_invalid_token_no_effect Scenario.cfg Scenario.at1030 1
           "not-the-token" "NewPass123!" Scenario.issued).
  vm_compute. reflexivity.
Defined.

(** X17.  The causes of refusal that do collapse.  On a store whose digests are
    well formed (every state the service reaches, see [reachable_wellformed]),
    no request for the id, a digest that does not match, an expired request
    and a soft-deleted account each make [resetPassword] throw the same
    [BadRequestException("Invalid password reset token")], whatever the other
    checks would have said; an unknown id is not reported as NotFound. *)
Theorem resetPassword_failures_collapse
  (cfg : Config) (env : Env) (id : Z) (token password : string) (s : Sys) :
  digests_wellformed s ->
  reset_failure cfg env s id token ->
  fst (resetPassword cfg env id token password s) = Throw InvalidToken.
Proof.
  intros W F.
  pose proof (resetPassword_cases cfg env id token password s) as C. cbv zeta in C.
  destruct (resetById id s) as [r|] eqn:L; [|rewrite C; reflexivity].
  rewrite (wellformed_lookup s id r W L) in C.
  destruct (hashedToken cfg token =? r_token r)%string eqn:D; [|rewrite C; reflexivity].
  destruct (string_gt (r_expiredAt r) (localNow env)) eqn:X; [|rewrite C; reflexivity].
  apply String.eqb_eq in D.
  destruct (relationUser r s) as [owner|] eqn:O.
  - destruct (activeUserById (r_user r) s) as [user|] eqn:A; [|rewrite C; reflexivity].
    exfalso.
    destruct F as [F | r' F N | r' F N | r' F _ N]; rewrite L in F;
      try discriminate F; injection F as <-; congruence.
  - exfalso.
    destruct F as [F | r' F N | r' F N | r' F N _]; rewrite L in F;
      try discriminate F; injection F as <-; congruence.
Qed.

Lemma resetPassword_failures_collapse_witness :
  fst (resetPassword Scenario.cfg Scenario.at1030 1 "not-the-token" "NewPass123!"
         Scenario.issued) = Throw InvalidToken /\
  fst (resetPassword Scenario.cfg Scenario.at1030 404 Scenario.token10 "NewPass123!"
         Scenario.issued) = Throw InvalidToken.
Proof.
  assert (W : digests_wellformed Scenario.issued)
    by (constructor; [reflexivity | constructor]).
  split.
  - apply (resetPassword_failures_collapse Scenario.cfg Scenario.at1030 1
             "not-the-token" "NewPass123!" Scenario.issued W).
    apply digest_mismatch with
      (r := {| r_id := 1; r_user := 1;
               r_token := hashedToken Scenario.cfg Scenario.token10;
               r_expiredAt := "2020-01-01T11:00:00.000+00:00" |}).
    + vm_compute. reflexivity.
    + apply String.eqb_neq. vm_compute. reflexivity.
  - apply (resetPassword_failures_collapse Scenario.cfg Scenario.at1030 404
             Scenario.token10 "NewPass123!" Scenario.issued W).
    apply no_such_request. reflexivity.
Defined.



(** X18.  The expiry test as the code makes it, and the order of the checks.  For
    a request found by its id:
    - when the presented token's digest equals the stored digest and the
      stored expiry is not greater, as a string, than the current time (the
      service compares the two timestamps with JavaScript's [>]),
      [resetPassword] fails with InvalidToken, having read the clock and not
      queried the user directory;
    - in particular, when the two timestamps are ISO renderings with one and
      the same zone offset and the expiry is not chronologically after the
      current time, a matching digest does not save the request;
    - a digest that does not match ends the validation before the clock is
      read: the digest is checked first;
    - with a matching digest, an expiry greater than the current time and a
      relation that is not null, the account is fetched, after the clock was
      read: it is checked last, and a soft-deleted account gives InvalidToken
      with nothing further done. *)
Theorem resetPassword_expiry_and_order
  (cfg : Config) (env : Env) (id : Z) (token password : string) (s : Sys)
  (r : PasswordResetEntity) :
  resetById id s = Some r ->
  let out := resetPassword cfg env id token password s in
  (hashedToken cfg token = r_token r ->
   string_gt (r_expiredAt r) (localNow env) = false ->
   fst out = Throw InvalidToken /\
   trace (snd out) = trace s ++ [ResetFindOne id; ClockRead]) /\
  (forall zone expiry now,
     Iso8601.fits expiry -> Iso8601.fits now ->
     r_expiredAt r = Iso8601.toISO zone expiry ->
     localNow env = Iso8601.toISO zone now ->
     Iso8601.chronological expiry now <> Gt ->
     hashedToken cfg token = r_token r ->
     fst out = Throw InvalidToken) /\
  (hashedToken cfg token <> r_token r ->
   trace (snd out) = trace s ++ [ResetFindOne id]) /\
  (hashedToken cfg token = r_token r ->
   string_gt (r_expiredAt r) (localNow env) = true ->
   relationUser r s <> None ->
   exists rest,
     trace (snd out)
     = trace s ++ [ResetFindOne id; ClockRead; UserGetOne (r_user r)] ++ rest /\
     (activeUserById (r_user r) s = None ->
      fst out = Throw InvalidToken /\ rest = [])).
Proof.
  intros L out. subst out.
  pose proof (resetPassword_cases cfg env id token password s) as C. cbv zeta in C.
  rewrite L in C.
  assert (Expired : hashedToken cfg token = r_token r ->
                    string_gt (r_expiredAt r) (localNow env) = false ->
                    resetPassword cfg env id token password s
                    = (Throw InvalidToken, logged s [ResetFindOne id; ClockRead])).
  { intros D X.
    rewrite <- D, hashedToken_length, Nat.eqb_refl, String.eqb_refl, X in C.
    exact C. }
  split; [|split; [|split]].
  - intros D X. rewrite (Expired D X). split; reflexivity.
  - intros zone expiry now Fe Fn Ee En Hnot D.
    rewrite Expired; [reflexivity | exact D |].
    rewrite Ee, En.
    destruct (string_gt (Iso8601.toISO zone expiry) (Iso8601.toISO zone now)) eqn:G;
      [|reflexivity].
    exfalso. apply Hnot. apply (string_gt_toISO zone expiry now Fe Fn). exact G.
  - intros D. apply String.eqb_neq in D. rewrite D in C.
    destruct (64 =? String.length (r_token r))%nat; rewrite C; reflexivity.
  - intros D X O.
    rewrite <- D, hashedToken_length, Nat.eqb_refl, String.eqb_refl, X in C.
    destruct (relationUser r s) as [owner|]; [|contradiction].
    destruct (activeUserById (r_user r) s) as [user|].
    + rewrite C.
      destruct (redemption_trace env user password
                  (DeleteWhereUserId "passwordreset" (r_user r))
                  {| to := u_email user; subject := "Password reset";
                     text := "Your password was successfully reset" |}
                  (logged s [ResetFindOne id; ClockRead; UserGetOne (r_user r)]))
        as [rest T].
      exists rest. split.
      * rewrite T. simpl. rewrite <- app_assoc. reflexivity.
      * discriminate.
    + rewrite C. exists []. split; [reflexivity|]. intros _. split; reflexivity.
Qed.

Lemma resetPassword_expiry_and_order_witness :
  fst (resetPassword Scenario.cfg Scenario.at12 1 Scenario.token10 "NewPass123!"
         Scenario.issued) = Throw InvalidToken.
Proof.
  apply (resetPassword_expiry_and_order Scenario.cfg Scenario.at12 1 Scenario.token10
           "NewPass123!" Scenario.issued
           {| r_id := 1; r_user := 1;
              r_token := hashedToken Scenario.cfg Scenario.token10;
              r_expiredAt := "2020-01-01T11:00:00.000+00:00" |}).
  - vm_compute. reflexivity.
  - vm_compute. reflexivity.
  - vm_compute. reflexivity.
Defined.

(** * Counting digests *)

Lemma allAscii_complete (c : ascii) : In c allAscii.
Proof.
  unfold allAscii. rewrite <- (ascii_nat_embedding c).
  apply in_map, in_seq. pose proof (nat_ascii_bounded c). lia.
Qed.

Lemma allStrings_complete (x : string) : In x (allStrings (String.length x)).
Proof.
  induction x as [|c x IH].
  - left. reflexivity.
  - change (In (String c x)
              (flat_map (fun d => map (String d) (allStrings (String.length x)))
                 allAscii)).
    apply in_flat_map. exists c. split; [apply allAscii_complete|].
    apply in_map. exact IH.
Qed.

Lemma filler_length (k : nat) : String.length (filler k) = k.
Proof.
  induction k as [|k IH]; simpl; congruence.
Qed.

(** Along a list without repetition, a function either repeats a value or
    maps the list to a list without repetition. *)
Lemma repeat_or_NoDup (g : nat -> string) (l : list nat) :
  NoDup l ->
  (exists i j, i <> j /\ g i = g j) \/ NoDup (map g l).
Proof.
  induction 1 as [|i l Hnotin _ IH]; simpl.
  - right. constructor.
  - destruct IH as [IH|IH]; [left; exact IH|].
    destruct (in_dec string_dec (g i) (map g l)) as [Hin|Hout].
    + left. apply in_map_iff in Hin as (j & E & Hj).
      exists i, j. split; [|congruence].
      intros ->. exact (Hnotin Hj).
    + right. constructor; assumption.
Qed.

(** A function from strings to strings of one fixed length takes the same
    value on two different strings. *)
Lemma fixed_length_collision (f : string -> string) (n : nat) :
  (forall x, String.length (f x) = n) ->
  exists a b, a <> b /\ f a = f b.
Proof.
  intros Hlen.
  set (m := S (List.length (allStrings n))).
  destruct (repeat_or_NoDup (fun k => f (filler k)) (seq 0 m) (seq_NoDup m 0))
    as [(i & j & Hij & E) | Hnodup].
  - exists (filler i), (filler j). split; [|exact E].
    intros Eq. apply Hij. rewrite <- (filler_length i), <- (filler_length j), Eq.
    reflexivity.
  - exfalso.
    assert (Hincl : incl (map (fun k => f (filler k)) (seq 0 m)) (allStrings n)).
    { intros y Hy. apply in_map_iff in Hy as (k & <- & _).
      rewrite <- (Hlen (filler k)). apply allStrings_complete. }
    pose proof (NoDup_incl_length Hnodup Hincl) as Hle.
    rewrite length_map, length_seq in Hle. subst m. lia.
Qed.

Example later_timestamp :
  string_gt "2020-01-01T11:00:00.000+00:00" "2020-01-01T10:00:00.000+00:00" = true.
Proof. reflexivity. Qed.

(** Since every digest has 64 characters, the digest cannot separate all
    strings: two different strings have the same digest, and the second one
    verifies against the digest of the first.  The argument counts and names
    no such pair. *)
Lemma distinct_tokens_may_verify :
  ~ (forall (cfg : Config) (env : Env) (s : Sys) (t t' : string)
            (r : PasswordResetEntity),
        t' <> t -> r_token r = hashedToken cfg t ->
        fst (isResetValid cfg env t' r s) <> Ok true).
Proof.
  intros H.
  destruct (fixed_length_collision (hashedToken Scenario.cfg) 64
              (hashedToken_length Scenario.cfg)) as (a & b & Hab & E).
  apply (H Scenario.cfg Scenario.at10 Scenario.start a b
           {| r_id := 1; r_user := 1; r_token := hashedToken Scenario.cfg a;
              r_expiredAt := "2020-01-01T11:00:00.000+00:00" |}).
  - intros Eq. apply Hab. symmetry. exact Eq.
  - reflexivity.
  - rewrite isResetValid_run. cbn [r_token r_expiredAt].
    rewrite hashedToken_length, Nat.eqb_refl, <- E, String.eqb_refl.
    change (localNow Scenario.at10) with "2020-01-01T10:00:00.000+00:00"%string.
    rewrite later_timestamp. reflexivity.
Qed.

(** Verification follows the digest.  Against a request that stores [digest(t)]:
    - [t] itself verifies: the comparison of the digests returns true, and
      [isResetValid] answers by the expiry alone;
    - every [t'] whose digest differs from [digest(t)] is refused with a plain
      [false], whatever the expiry;
    - the digest depends on the token and on [hmacSecret] only: the same
      token under the same secret has the same digest. *)
Lemma verification_follows_digest
  (cfg : Config) (env : Env) (s : Sys) (t t' : string) (r : PasswordResetEntity) :
  r_token r = hashedToken cfg t ->
  (timingSafeEqual (Buffer_from (hashedToken cfg t)) (Buffer_from (r_token r)) = Ok true /\
   fst (isResetValid cfg env t r s) = Ok (string_gt (r_expiredAt r) (localNow env))) /\
  (hashedToken cfg t' <> hashedToken cfg t ->
   fst (isResetValid cfg env t' r s) = Ok false) /\
  (forall cfg', hmacSecret cfg' = hmacSecret cfg ->
                hashedToken cfg' t = hashedToken cfg t).
Proof.
  intros Hr. split; [|split].
  - split.
    + rewrite compare_digests, Hr, Nat.eqb_refl, String.eqb_refl. reflexivity.
    + rewrite isResetValid_run, Hr, hashedToken_length, Nat.eqb_refl,
        String.eqb_refl. reflexivity.
  - intros D. apply String.eqb_neq in D.
    rewrite isResetValid_run, Hr, hashedToken_length, Nat.eqb_refl, D. reflexivity.
  - intros cfg' Hk. unfold hashedToken. rewrite Hk. reflexivity.
Qed.

Lemma verification_follows_digest_witness :
  fst (isResetValid Scenario.cfg Scenario.at1030 Scenario.token10
         {| r_id := 1; r_user := 1;
            r_token := hashedToken Scenario.cfg Scenario.token10;
            r_expiredAt := "2020-01-01T11:00:00.000+00:00" |} Scenario.issued)
  = Ok true /\
  fst (isResetValid Scenario.cfg Scenario.at1030 "not-the-token"
         {| r_id := 1; r_user := 1;
            r_token := hashedToken Scenario.cfg Scenario.token10;
            r_expiredAt := "2020-01-01T11:00:00.000+00:00" |} Scenario.issued)
  = Ok false.
Proof.
  destruct (verification_follows_digest Scenario.cfg Scenario.at1030 Scenario.issued
              Scenario.token10 "not-the-token"
              {| r_id := 1; r_user := 1;
                 r_token := hashedToken Scenario.cfg Scenario.token10;
                 r_expiredAt := "2020-01-01T11:00:00.000+00:00" |})
    as ((_ & Same) & Other & _).
  - vm_compute. reflexivity.
  - split.
    + rewrite Same. vm_compute. reflexivity.
    + apply Other. apply String.eqb_neq. vm_compute. reflexivity.
Defined.

(** * Where the service departs from its specification *)

(** A stored digest whose length is not that of the recomputed digest makes
    [isResetValid] throw instead of answering [false]. *)
Lemma isResetValid_length_mismatch (cfg : Config) (env : Env) (token : string)
  (r : PasswordResetEntity) (s : Sys) :
  String.length (r_token r) <> String.length (hashedToken cfg token) ->
  isResetValid cfg env token r s
  = (Throw (RangeError "ERR_CRYPTO_TIMING_SAFE_EQUAL_LENGTH"), s).
Proof.
  intros L. rewrite isResetValid_run.
  rewrite hashedToken_length in L.
  destruct (Nat.eqb_spec 64 (String.length (r_token r))) as [E|_]; [|reflexivity].
  exfalso. apply L. symmetry. exact E.
Qed.

(** The part of C2 the code keeps: once the checks have passed, a failure of
    the password update makes the whole call fail, with no confirmation
    mailed and no account row written. *)
Lemma resetPassword_update_failure (cfg : Config) (env : Env) (id : Z)
  (token password : string) (s : Sys) (r : PasswordResetEntity) (user : UserEntity) :
  resetById id s = Some r ->
  hashedToken cfg token = r_token r ->
  string_gt (r_expiredAt r) (localNow env) = true ->
  activeUserById (r_user r) s = Some user ->
  argon2 env password = None \/ userSaveFault env <> None ->
  let out := resetPassword cfg env id token password s in
  exists err, fst out = Throw err /\ users (snd out) = users s /\
              outbox (snd out) = outbox s.
Proof.
  intros L D X A F out. subst out.
  rewrite (resetPassword_passes cfg env id token password s r user L D X A).
  exact (redemption_update_failure env user password _ _ (logged s _) F).
Qed.







Example instant_epoch :
  Iso8601.instant 0 {| Iso8601.year := 1970; Iso8601.month := 1; Iso8601.day := 1;
                       Iso8601.hour := 0; Iso8601.minute := 0; Iso8601.second := 0;
                       Iso8601.millisecond := 0 |} = 0.
Proof. reflexivity. Qed.

Example instant_leap_day :
  Iso8601.instant (-300) {| Iso8601.year := 2000; Iso8601.month := 2; Iso8601.day := 29;
                            Iso8601.hour := 19; Iso8601.minute := 0; Iso8601.second := 0;
                            Iso8601.millisecond := 1 |} = 951868800001.
Proof. reflexivity. Qed.

(** C5 on the code: London, the night of 25 October 2020.  A request is
    issued at 00:50 summer time and expires at 01:50 summer time, which is
    00:50 UTC.  At 02:00 summer time the clocks go back, and at 01:10 winter
    time, which is 01:10 UTC and twenty minutes after the expiry instant, the
    mailed token is presented.  The stored expiry
    ["2020-10-25T01:50:00.000+01:00"] is greater, as a string, than the
    current time ["2020-10-25T01:10:00.000+00:00"]: [resetPassword] does not
    answer InvalidToken, it changes the password. *)
Theorem resetPassword_redeems_after_expiry_instant :
  let expiry := {| Iso8601.year := 2020; Iso8601.month := 10; Iso8601.day := 25;
                   Iso8601.hour := 1; Iso8601.minute := 50; Iso8601.second := 0;
                   Iso8601.millisecond := 0 |} in
  let now := {| Iso8601.year := 2020; Iso8601.month := 10; Iso8601.day := 25;
                Iso8601.hour := 1; Iso8601.minute := 10; Iso8601.second := 0;
                Iso8601.millisecond := 0 |} in
  let s := snd (forgotPassword Scenario.cfg Scenario.summerTime "u1@example.com"
                  Scenario.start) in
  let out := resetPassword Scenario.cfg Scenario.winterTime 1
               (plaintextToken Scenario.summerTime) "NewPass123!" s in
  map r_expiredAt (passwordResets s) = [Iso8601.toISO (Iso8601.zone 60) expiry] /\
  localNow Scenario.winterTime = Iso8601.toISO (Iso8601.zone 0) now /\
  Iso8601.instant 60 expiry = 1603587000000 /\
  Iso8601.instant 0 now = 1603588200000 /\
  Iso8601.instant 60 expiry < Iso8601.instant 0 now /\
  fst out = Ok {| message := "Password reset successfully" |} /\
  map u_password (users (snd out)) = ["$argon2i$NewPass123!"; "$argon2i$u2"]%string.
Proof.
  vm_compute. repeat split.
Qed.

(** C1 on the code: the request issued at ten o'clock is redeemed at half
    past ten; the reset table after the redemption is the table before it,
    and the same id and token are redeemed a second time, changing the
    password again, instead of failing with InvalidToken. *)
Theorem resetPassword_replay_succeeds :
  let first := resetPassword Scenario.cfg Scenario.at1030 1 Scenario.token10
                 "NewPass123!" Scenario.issued in
  let second := resetPassword Scenario.cfg Scenario.at1030 1 Scenario.token10
                  "Again456!" (snd first) in
  fst first = Ok {| message := "Password reset successfully" |} /\
  passwordResets (snd first) = passwordResets Scenario.issued /\
  resetById 1 (snd first) <> None /\
  fst second = Ok {| message := "Password reset successfully" |} /\
  map u_password (users (snd second)) = ["$argon2i$Again456!"; "$argon2i$u2"]%string.
Proof.
  vm_compute. repeat split. discriminate.
Qed.

(** C2 on the code: account 1 owns two requests, the expired one of ten
    o'clock and the one of twelve.  Redeeming the second reports success and
    mails the confirmation, while both rows are still in the table: the calls
    made to the outside are the lookup of the request, the clock, the fetch
    of the account, argon2, the write of the account and the mail -- no
    deletion was sent, let alone completed. *)
Theorem resetPassword_success_without_deletion :
  let out := resetPassword Scenario.cfg Scenario.at1230 2 Scenario.token12
               "NewPass123!" Scenario.issuedTwice in
  fst out = Ok {| message := "Password reset successfully" |} /\
  map r_id (filter (fun r => r_user r =? 1) (passwordResets (snd out))) = [1; 2] /\
  passwordResets (snd out) = passwordResets Scenario.issuedTwice /\
  trace (snd out)
  = trace Scenario.issuedTwice
    ++ [ResetFindOne 2; ClockRead; UserGetOne 1; Argon2Hash; UserSave 1;
        SendMail "u1@example.com"] /\
  map subject (outbox (snd out))
  = map subject (outbox Scenario.issuedTwice) ++ ["Password reset"%string].
Proof.
  vm_compute. repeat split.
Qed.

(** * Further properties of the issuer *)

(** [forgotPassword] in closed form: each exit with its result and the state
    it leaves. *)
Lemma forgotPassword_cases (cfg : Config) (env : Env) (email : string) (s : Sys) :
  let out := forgotPassword cfg env email s in
  match userByEmail email s with
  | None =>
      out = (Throw (NotFoundException "User not found"), logged s [UserFindOne email])
  | Some u =>
      let refused := logged s [UserFindOne email; ResetSave (u_id u)] in
      if hasPending (localNow env) (u_id u) s
      then out = (Throw (ConflictException "Password reset email has already been sent"),
                  refused)
      else
        match insertFault env with
        | Some c =>
            out = (Throw (if (c =? "23505")%string
                          then ConflictException "Password reset email has already been sent"
                          else InternalServerErrorException), refused)
        | None =>
            let token := plaintextToken env in
            let row := {| r_id := nextResetId s; r_user := u_id u;
                          r_token := hashedToken cfg token;
                          r_expiredAt := newExpiry env |} in
            let mail := {| to := email; subject := "Reset your password";
                           text := url cfg (nextResetId s) token |} in
            let calls := trace s ++ [UserFindOne email; ResetSave (u_id u); SendMail email] in
            match mailFault env with
            | Some n =>
                out = (Throw (LibraryError n),
                       {| users := users s; passwordResets := passwordResets s ++ [row];
                          nextResetId := nextResetId s + 1; outbox := outbox s;
                          trace := calls |})
            | None =>
                out = (Ok {| message := ("Email sent to " ++ u_email u)%string |},
                       {| users := users s; passwordResets := passwordResets s ++ [row];
                          nextResetId := nextResetId s + 1;
                          outbox := outbox s ++ [mail]; trace := calls |})
            end
        end
  end.
Proof.
  intros out. subst out.
  unfold forgotPassword, userRepository_findOne, passwordResetRepository_save, sendMail.
  unfold_monad.
  change (userByEmail email (logged s [UserFindOne email])) with (userByEmail email s).
  destruct (userByEmail email s) as [u|]; [|reflexivity].
  change (hasPending (localNow env) (u_id u)
            (logged (logged s [UserFindOne email]) [ResetSave (u_id u)]))
    with (hasPending (localNow env) (u_id u) s).
  cbv zeta.
  destruct (hasPending (localNow env) (u_id u) s).
  - rewrite logged_logged. reflexivity.
  - destruct (insertFault env) as [c|].
    + rewrite logged_logged. cbn [code]. destruct (c =? "23505")%string; reflexivity.
    + unfold logged. cbn [users passwordResets nextResetId outbox trace to r_id app].
      destruct (mailFault env);
        cbn [users passwordResets nextResetId outbox trace to r_id app];
        rewrite <- ?app_assoc; reflexivity.
Qed.

(** X1.  When the e-mail address belongs to an account without a pending
    request and the store and the mail transport work, [forgotPassword]
    answers ["Email sent to <user.email>"], adds exactly one row -- owned by
    that account, carrying the HMAC digest of the generated token and never
    the token itself -- and sends exactly one mail, to the address of the
    request, whose text is the reset link built from the id of the saved row
    and the plaintext token.  The user directory is not touched. *)
Theorem forgotPassword_issues_request
  (cfg : Config) (env : Env) (email : string) (s : Sys) (u : UserEntity) :
  userByEmail email s = Some u ->
  hasPending (localNow env) (u_id u) s = false ->
  insertFault env = None ->
  mailFault env = None ->
  let out := forgotPassword cfg env email s in
  let token := plaintextToken env in
  fst out = Ok {| message := ("Email sent to " ++ u_email u)%string |} /\
  passwordResets (snd out)
  = passwordResets s ++ [{| r_id := nextResetId s; r_user := u_id u;
                            r_token := hashedToken cfg token;
                            r_expiredAt := newExpiry env |}] /\
  outbox (snd out)
  = outbox s ++ [{| to := email; subject := "Reset your password";
                    text := url cfg (nextResetId s) token |}] /\
  users (snd out) = users s.
Proof.
  intros Hu Hfree Hins Hmail out token. subst out token.
  pose proof (forgotPassword_cases cfg env email s) as C. cbv zeta in C.
  rewrite Hu, Hfree, Hins, Hmail in C. rewrite C. repeat split.
Qed.

Lemma forgotPassword_issues_request_witness :
  fst (forgotPassword Scenario.cfg Scenario.at10 "u1@example.com" Scenario.start)
  = Ok {| message := "Email sent to u1@example.com" |} /\
  map to (outbox (snd (forgotPassword Scenario.cfg Scenario.at10 "u1@example.com"
                         Scenario.start)))
  = ["u1@example.com"%string].
Proof.
  destruct (forgotPassword_issues_request Scenario.cfg Scenario.at10 "u1@example.com"
              Scenario.start Scenario.u1) as (R & _ & O & _).
  - reflexivity.
  - reflexivity.
  - reflexivity.
  - reflexivity.
  - split; [exact R|]. rewrite O. reflexivity.
Defined.

(** X2.  When the store refuses the insert with any code other than 23505
    (the account having no pending request), [forgotPassword] fails with
    [InternalServerErrorException]: the store's own error does not reach the
    caller, no row is written and no mail is sent. *)
Theorem forgotPassword_store_failure
  (cfg : Config) (env : Env) (email : string) (s : Sys) (u : UserEntity) (c : string) :
  userByEmail email s = Some u ->
  hasPending (localNow env) (u_id u) s = false ->
  insertFault env = Some c ->
  c <> "23505"%string ->
  let out := forgotPassword cfg env email s in
  fst out = Throw InternalServerErrorException /\
  unchanged s (snd out) /\
  trace (snd out) = trace s ++ [UserFindOne email; ResetSave (u_id u)].
Proof.
  intros Hu Hfree Hins Hc out. subst out.
  pose proof (forgotPassword_cases cfg env email s) as C. cbv zeta in C.
  rewrite Hu, Hfree, Hins in C. apply String.eqb_neq in Hc. rewrite Hc in C.
  rewrite C. repeat split.
Qed.

Lemma forgotPassword_store_failure_witness :
  fst (forgotPassword Scenario.cfg Scenario.storeDown "u1@example.com" Scenario.start)
  = Throw InternalServerErrorException /\
  passwordResets
    (snd (forgotPassword Scenario.cfg Scenario.storeDown "u1@example.com" Scenario.start))
  = [].
Proof.
  destruct (forgotPassword_store_failure Scenario.cfg Scenario.storeDown
              "u1@example.com" Scenario.start Scenario.u1 "08006")
    as (R & (_ & T & _) & _).
  - reflexivity.
  - reflexivity.
  - reflexivity.
  - discriminate.
  - split; [exact R | exact T].
Defined.

(** X3.  What [forgotPassword] may touch, whatever the input and however it
    ends.  It never writes the user directory.  Either it leaves the reset
    table and the outbox as they were, or it has added exactly one row --
    under the id the store assigns, carrying the digest of the generated
    token -- and at most one mail, addressed to the address of the request.
    It answers normally only for the address of an account, with the
    confirmation naming that account's address, and only after the insert
    and the mail transport both went through and the link was mailed. *)
Theorem forgotPassword_frame
  (cfg : Config) (env : Env) (email : string) (s : Sys) :
  let out := forgotPassword cfg env email s in
  users (snd out) = users s /\
  (unchanged s (snd out) \/
   exists row, passwordResets (snd out) = passwordResets s ++ [row] /\
               r_id row = nextResetId s /\
               r_token row = hashedToken cfg (plaintextToken env) /\
               (outbox (snd out) = outbox s \/
                exists mail, outbox (snd out) = outbox s ++ [mail] /\ to mail = email)) /\
  (forall answer, fst out = Ok answer ->
     exists u, userByEmail email s = Some u /\
               answer = {| message := ("Email sent to " ++ u_email u)%string |} /\
               insertFault env = None /\ mailFault env = None /\
               outbox (snd out)
               = outbox s ++ [{| to := email; subject := "Reset your password";
                                 text := url cfg (nextResetId s) (plaintextToken env) |}]).
Proof.
  intros out. subst out.
  pose proof (forgotPassword_cases cfg env email s) as C. cbv zeta in C.
  destruct (userByEmail email s) as [u|].
  - destruct (hasPending (localNow env) (u_id u) s).
    + rewrite C. split; [|split];
        [reflexivity | left; apply unchanged_logged | intros answer E; discriminate E].
    + destruct (insertFault env) as [c|].
      * rewrite C. split; [|split];
          [reflexivity | left; apply unchanged_logged | intros answer E; discriminate E].
      * destruct (mailFault env) as [n|]; rewrite C.
        -- split; [|split]; [reflexivity | | intros answer E; discriminate E].
           right. eexists. repeat split. left. reflexivity.
        -- split; [|split]; [reflexivity | |].
           ++ right. eexists. repeat split. right. eexists. split; reflexivity.
           ++ intros answer E. injection E as <-. exists u. repeat split.
  - rewrite C. split; [|split];
      [reflexivity | left; apply unchanged_logged | intros answer E; discriminate E].
Qed.

(** * Further properties of the redeemer *)

Lemma activeUserById_found (userId : Z) (s : Sys) (user : UserEntity) :
  activeUserById userId s = Some user ->
  In user (users s) /\ u_id user = userId /\ u_deletedAt user = None.
Proof.
  unfold activeUserById. intros F. apply find_some in F as [Hin Hp].
  apply andb_prop in Hp as [Hid Hlive]. apply Z.eqb_eq in Hid.
  destruct (u_deletedAt user); [discriminate Hlive|]. auto.
Qed.

(** Lines 85-99 in closed form, for an account that is in the directory. *)
Lemma redemption_cases (env : Env) (user : UserEntity) (password : string)
  (query : DeleteQueryBuilder) (s : Sys) :
  In user (users s) ->
  (res <- Promise_all (APromise (resetUserPassword env user password)) (AValue query) ;;
   sendMail env (confirmation user) ;;
   ret {| message := message (fst res) |}) s
  = match argon2 env password with
    | None => (Throw (LibraryError "argon2"), logged s [Argon2Hash])
    | Some digest =>
        match userSaveFault env with
        | Some c =>
            (Throw (QueryFailedError c), logged s [Argon2Hash; UserSave (u_id user)])
        | None =>
            let rows := map (fun u => if u_id u =? u_id user
                                      then withPassword user digest else u) (users s) in
            let calls := trace s ++ [Argon2Hash; UserSave (u_id user);
                                     SendMail (u_email user)] in
            match mailFault env with
            | Some n =>
                (Throw (LibraryError n),
                 {| users := rows; passwordResets := passwordResets s;
                    nextResetId := nextResetId s; outbox := outbox s; trace := calls |})
            | None =>
                (Ok {| message := "Password reset successfully" |},
                 {| users := rows; passwordResets := passwordResets s;
                    nextResetId := nextResetId s;
                    outbox := outbox s ++ [confirmation user]; trace := calls |})
            end
        end
    end.
Proof.
  intros Hin.
  assert (E : existsb (fun u => u_id u =? u_id user) (users s) = true).
  { apply existsb_exists. exists user. split; [exact Hin | apply Z.eqb_refl]. }
  unfold resetUserPassword, argon2_hash, userRepository_save, sendMail, confirmation,
    withPassword.
  unfold_monad. unfold settle, logged. simpl.
  destruct (argon2 env password) as [digest|]; simpl; [|reflexivity].
  destruct (userSaveFault env) as [c|]; simpl.
  - rewrite <- ?app_assoc. reflexivity.
  - rewrite E.
    destruct (mailFault env); simpl; rewrite <- ?app_assoc; reflexivity.
Qed.

(** X4.  A request that exists, whose digest matches, that has not expired
    and whose account is live is redeemed when argon2, the store and the mail
    transport work: [resetPassword] answers ["Password reset successfully"],
    every row of the account now carries the argon2 digest of the new
    password (never the password itself), the rows of the other accounts are
    as they were, and one confirmation is mailed to the account's address. *)
Theorem resetPassword_redeems
  (cfg : Config) (env : Env) (id : Z) (token password : string) (s : Sys)
  (r : PasswordResetEntity) (user : UserEntity) (digest : string) :
  resetById id s = Some r ->
  hashedToken cfg token = r_token r ->
  string_gt (r_expiredAt r) (localNow env) = true ->
  activeUserById (r_user r) s = Some user ->
  argon2 env password = Some digest ->
  userSaveFault env = None ->
  mailFault env = None ->
  let out := resetPassword cfg env id token password s in
  fst out = Ok {| message := "Password reset successfully" |} /\
  users (snd out)
  = map (fun u => if u_id u =? r_user r then withPassword user digest else u) (users s) /\
  outbox (snd out) = outbox s ++ [confirmation user].
Proof.
  intros L D X A Hh Hs Hm out. subst out.
  destruct (activeUserById_found _ _ _ A) as (Hin & Hid & _).
  rewrite (resetPassword_passes cfg env id token password s r user L D X A).
  rewrite redemption_cases by exact Hin.
  rewrite Hh, Hs, Hm, Hid. repeat split.
Qed.

Lemma resetPassword_redeems_witness :
  fst (resetPassword Scenario.cfg Scenario.at1030 1 Scenario.token10 "NewPass123!"
         Scenario.issued)
  = Ok {| message := "Password reset successfully" |} /\
  map u_password
    (users (snd (resetPassword Scenario.cfg Scenario.at1030 1 Scenario.token10
                   "NewPass123!" Scenario.issued)))
  = ["$argon2i$NewPass123!"; "$argon2i$u2"]%string.
Proof.
  destruct (resetPassword_redeems Scenario.cfg Scenario.at1030 1 Scenario.token10
              "NewPass123!" Scenario.issued
              {| r_id := 1; r_user := 1;
                 r_token := hashedToken Scenario.cfg Scenario.token10;
                 r_expiredAt := "2020-01-01T11:00:00.000+00:00" |}
              Scenario.u1 "$argon2i$NewPass123!") as (R & U & _).
  - vm_compute. reflexivity.
  - vm_compute. reflexivity.
  - vm_compute. reflexivity.
  - vm_compute. reflexivity.
  - vm_compute. reflexivity.
  - reflexivity.
  - reflexivity.
  - split; [exact R|]. rewrite U. vm_compute. reflexivity.
Defined.

(** X5.  When everything up to the password update succeeded and the mail
    transport then refuses the confirmation, [resetPassword] fails with the
    transport's error, and the new password stays written: the update is not
    undone, and no confirmation is in the outbox. *)
Theorem resetPassword_mail_failure_keeps_password
  (cfg : Config) (env : Env) (id : Z) (token password : string) (s : Sys)
  (r : PasswordResetEntity) (user : UserEntity) (digest n : string) :
  resetById id s = Some r ->
  hashedToken cfg token = r_token r ->
  string_gt (r_expiredAt r) (localNow env) = true ->
  activeUserById (r_user r) s = Some user ->
  argon2 env password = Some digest ->
  userSaveFault env = None ->
  mailFault env = Some n ->
  let out := resetPassword cfg env id token password s in
  fst out = Throw (LibraryError n) /\
  users (snd out)
  = map (fun u => if u_id u =? r_user r then withPassword user digest else u) (users s) /\
  outbox (snd out) = outbox s.
Proof.
  intros L D X A Hh Hs Hm out. subst out.
  destruct (activeUserById_found _ _ _ A) as (Hin & Hid & _).
  rewrite (resetPassword_passes cfg env id token password s r user L D X A).
  rewrite redemption_cases by exact Hin.
  rewrite Hh, Hs, Hm, Hid. repeat split.
Qed.

Lemma resetPassword_mail_failure_keeps_password_witness :
  fst (resetPassword Scenario.cfg Scenario.mailDown1030 1 Scenario.token10
         "NewPass123!" Scenario.issued)
  = Throw (LibraryError "ECONNREFUSED") /\
  map u_password
    (users (snd (resetPassword Scenario.cfg Scenario.mailDown1030 1 Scenario.token10
                   "NewPass123!" Scenario.issued)))
  = ["$argon2i$NewPass123!"; "$argon2i$u2"]%string.
Proof.
  destruct (resetPassword_mail_failure_keeps_password Scenario.cfg
              Scenario.mailDown1030 1 Scenario.token10 "NewPass123!" Scenario.issued
              {| r_id := 1; r_user := 1;
                 r_token := hashedToken Scenario.cfg Scenario.token10;
                 r_expiredAt := "2020-01-01T11:00:00.000+00:00" |}
              Scenario.u1 "$argon2i$NewPass123!" "ECONNREFUSED") as (R & U & _).
  - vm_compute. reflexivity.
  - vm_compute. reflexivity.
  - vm_compute. reflexivity.
  - vm_compute. reflexivity.
  - vm_compute. reflexivity.
  - reflexivity.
  - reflexivity.
  - split; [exact R|]. rewrite U. vm_compute. reflexivity.
Defined.

Lemma replace_by_id_ids (k : Z) (w : UserEntity) (l : list UserEntity) :
  u_id w = k ->
  map u_id (map (fun u => if u_id u =? k then w else u) l) = map u_id l.
Proof.
  intros Hw. induction l as [|u l IH]; simpl; [reflexivity|].
  rewrite IH. destruct (Z.eqb_spec (u_id u) k) as [E|_]; congruence.
Qed.

Lemma replace_by_id_others (k : Z) (w : UserEntity) (l : list UserEntity) (u : UserEntity) :
  u_id w = k ->
  In u (map (fun u => if u_id u =? k then w else u) l) -> In u l \/ u_id u = k.
Proof.
  intros Hw Hin. apply in_map_iff in Hin as (v & E & Hv).
  destruct (u_id v =? k); subst; auto.
Qed.

(** X6.  Whatever the input and the outcome, [resetPassword] leaves the reset
    table and the id counter as they were, creates and removes no account,
    changes no row other than those of the account that owns the request, and
    adds nothing to the outbox except the confirmation for that account. *)
Theorem resetPassword_frame
  (cfg : Config) (env : Env) (id : Z) (token password : string) (s : Sys) :
  let out := resetPassword cfg env id token password s in
  passwordResets (snd out) = passwordResets s /\
  nextResetId (snd out) = nextResetId s /\
  map u_id (users (snd out)) = map u_id (users s) /\
  (forall u, In u (users (snd out)) ->
             In u (users s) \/ exists r, resetById id s = Some r /\ u_id u = r_user r) /\
  (outbox (snd out) = outbox s \/
   exists r user, resetById id s = Some r /\ activeUserById (r_user r) s = Some user /\
                  outbox (snd out) = outbox s ++ [confirmation user]).
Proof.
  intros out. subst out.
  assert (Quiet : forall err evs,
             resetPassword cfg env id token password s = (Throw err, logged s evs) ->
             passwordResets (snd (resetPassword cfg env id token password s))
             = passwordResets s /\
             nextResetId (snd (resetPassword cfg env id token password s))
             = nextResetId s /\
             map u_id (users (snd (resetPassword cfg env id token password s)))
             = map u_id (users s) /\
             (forall u, In u (users (snd (resetPassword cfg env id token password s))) ->
                        In u (users s) \/
                        exists r, resetById id s = Some r /\ u_id u = r_user r) /\
             (outbox (snd (resetPassword cfg env id token password s)) = outbox s \/
              exists r user, resetById id s = Some r /\
                             activeUserById (r_user r) s = Some user /\
                             outbox (snd (resetPassword cfg env id token password s))
                             = outbox s ++ [confirmation user])).
  { intros err evs E. rewrite E. simpl. repeat split; auto. }
  pose proof (resetPassword_cases cfg env id token password s) as C. cbv zeta in C.
  destruct (resetById id s) as [r|] eqn:L; [|eapply Quiet; exact C].
  destruct (64 =? String.length (r_token r))%nat eqn:W; [|eapply Quiet; exact C].
  destruct (hashedToken cfg token =? r_token r)%string eqn:D; [|eapply Quiet; exact C].
  destruct (string_gt (r_expiredAt r) (localNow env)) eqn:X; [|eapply Quiet; exact C].
  destruct (relationUser r s) as [owner|] eqn:O; [|eapply Quiet; exact C].
  destruct (activeUserById (r_user r) s) as [user|] eqn:A; [|eapply Quiet; exact C].
  destruct (activeUserById_found _ _ _ A) as (Hin & Hid & _).
  rewrite C. change {| to := u_email user; subject := "Password reset";
                       text := "Your password was successfully reset" |}
    with (confirmation user).
  rewrite redemption_cases by exact Hin.
  destruct (argon2 env password) as [digest|];
    [|simpl; repeat split; auto].
  destruct (userSaveFault env) as [c|]; [simpl; repeat split; auto|].
  assert (Hw : u_id (withPassword user digest) = u_id user) by reflexivity.
  destruct (mailFault env) as [n|]; cbn [fst snd users passwordResets nextResetId outbox];
    (split; [reflexivity|]; split; [reflexivity|];
     split; [apply replace_by_id_ids; exact Hw|]; split;
     [intros u Hu; apply replace_by_id_others in Hu; [|exact Hw];
      destruct Hu as [Hu|Hu]; [left; exact Hu | right; exists r; split; congruence] |]).
  - left. reflexivity.
  - right. exists r, user. repeat split. exact A.
Qed.

(** X7.  [resetPassword] answers success only for a request that passed
    every check and after every step went through: whenever it returns a
    message, the message is ["Password reset successfully"], a request is
    stored under the id, its digest is the HMAC of the presented token, its
    expiry is greater than the current time, its account is live, and
    argon2, the write of the account and the mail transport all worked. *)
Theorem resetPassword_success_only_if
  (cfg : Config) (env : Env) (id : Z) (token password : string) (s : Sys)
  (answer : MessageResponse) :
  fst (resetPassword cfg env id token password s) = Ok answer ->
  answer = {| message := "Password reset successfully" |} /\
  exists r user digest,
    resetById id s = Some r /\
    hashedToken cfg token = r_token r /\
    string_gt (r_expiredAt r) (localNow env) = true /\
    activeUserById (r_user r) s = Some user /\
    argon2 env password = Some digest /\
    userSaveFault env = None /\
    mailFault env = None.
Proof.
  pose proof (resetPassword_cases cfg env id token password s) as C. cbv zeta in C.
  destruct (resetById id s) as [r|] eqn:L; [|rewrite C; discriminate].
  destruct (64 =? String.length (r_token r))%nat; [|rewrite C; discriminate].
  destruct (String.eqb_spec (hashedToken cfg token) (r_token r)) as [D|D];
    [|rewrite C; discriminate].
  destruct (string_gt (r_expiredAt r) (localNow env)) eqn:X; [|rewrite C; discriminate].
  destruct (relationUser r s) as [owner|]; [|rewrite C; discriminate].
  destruct (activeUserById (r_user r) s) as [user|] eqn:A; [|rewrite C; discriminate].
  destruct (activeUserById_found _ _ _ A) as (Hin & _).
  rewrite C. change {| to := u_email user; subject := "Password reset";
                       text := "Your password was successfully reset" |}
    with (confirmation user).
  rewrite redemption_cases by exact Hin.
  destruct (argon2 env password) as [digest|] eqn:Hh; [|discriminate].
  destruct (userSaveFault env) as [c|] eqn:Hs; [discriminate|].
  destruct (mailFault env) as [n|] eqn:Hm; [discriminate|].
  cbn [fst]. intros E. injection E as <-. split; [reflexivity|].
  exists r, user, digest. repeat split; assumption.
Qed.

Lemma resetPassword_success_only_if_witness :
  exists r, resetById 1 Scenario.issued = Some r /\
            hashedToken Scenario.cfg Scenario.token10 = r_token r.
Proof.
  destruct (resetPassword_success_only_if Scenario.cfg Scenario.at1030 1
              Scenario.token10 "NewPass123!" Scenario.issued
              {| message := "Password reset successfully" |})
    as (_ & r & _ & _ & L & D & _).
  - vm_compute. reflexivity.
  - exists r. split; assumption.
Defined.

(** X8.  [isResetValid] answers [true] exactly when the stored digest is the
    HMAC of the presented token and the stored expiry is greater than the
    current time; and it writes nothing. *)
Theorem isResetValid_true_iff
  (cfg : Config) (env : Env) (token : string) (r : PasswordResetEntity) (s : Sys) :
  (fst (isResetValid cfg env token r s) = Ok true <->
   hashedToken cfg token = r_token r /\
   string_gt (r_expiredAt r) (localNow env) = true) /\
  unchanged s (snd (isResetValid cfg env token r s)).
Proof.
  rewrite isResetValid_run.
  destruct (Nat.eqb_spec 64 (String.length (r_token r))) as [W|W].
  - destruct (String.eqb_spec (hashedToken cfg token) (r_token r)) as [D|D].
    + split; [|apply unchanged_logged]. simpl. split.
      * intros E. injection E as E. auto.
      * intros [_ E]. rewrite E. reflexivity.
    + split; [|repeat split]. simpl. split.
      * discriminate.
      * intros [E _]. contradiction.
  - split; [|repeat split]. simpl. split.
    + discriminate.
    + intros [E _]. exfalso. apply W. rewrite <- E, hashedToken_length. reflexivity.
Qed.

(** * Issuing, then redeeming *)

Lemma find_appended {A : Type} (p : A -> bool) (l : list A) (x : A) :
  find p l = None -> p x = true -> find p (l ++ [x]) = Some x.
Proof.
  intros Hnone Hx. induction l as [|y l IH]; simpl in *.
  - rewrite Hx. reflexivity.
  - destruct (p y); [discriminate Hnone | apply IH; exact Hnone].
Qed.

Lemma find_replaced (k : Z) (w : UserEntity) (l : list UserEntity) :
  u_id w = k -> u_deletedAt w = None ->
  (exists v, In v l /\ u_id v = k) ->
  find (fun u => (u_id u =? k) &&
                 match u_deletedAt u with None => true | Some _ => false end)
       (map (fun u => if u_id u =? k then w else u) l)
  = Some w.
Proof.
  intros Hid Hlive. induction l as [|v l IH]; intros (x & Hin & Hx).
  - destruct Hin.
  - simpl. destruct (Z.eqb_spec (u_id v) k) as [E|N].
    + rewrite Hid, Z.eqb_refl, Hlive. reflexivity.
    + destruct (Z.eqb_spec (u_id v) k) as [E|_]; [contradiction|]. simpl.
      apply IH. destruct Hin as [->|Hin]; [contradiction|]. exists x. auto.
Qed.

(** X9.  The link mailed by [forgotPassword] redeems.  For a live account
    without a pending request, when the store gives the new row an id no
    other row carries, a later [resetPassword] with the id of the saved row
    and the token of the mail, made before the expiry, succeeds (argon2, the
    store and the mail transport working): it answers ["Password reset
    successfully"], and the account then carries the argon2 digest of the new
    password. *)
Theorem issued_link_redeems
  (cfg : Config) (issue redeem : Env) (email password : string) (s : Sys)
  (u : UserEntity) (digest : string) :
  userByEmail email s = Some u ->
  u_deletedAt u = None ->
  hasPending (localNow issue) (u_id u) s = false ->
  insertFault issue = None ->
  mailFault issue = None ->
  resetById (nextResetId s) s = None ->
  string_gt (newExpiry issue) (localNow redeem) = true ->
  argon2 redeem password = Some digest ->
  userSaveFault redeem = None ->
  mailFault redeem = None ->
  let issued := snd (forgotPassword cfg issue email s) in
  let out := resetPassword cfg redeem (nextResetId s) (plaintextToken issue) password
               issued in
  fst out = Ok {| message := "Password reset successfully" |} /\
  exists account, activeUserById (u_id u) (snd out) = Some account /\
                  u_password account = digest.
Proof.
  intros Hu Hlive Hfree Hins Hmail Hfresh Hexp Hh Hs Hm issued out.
  pose proof (forgotPassword_cases cfg issue email s) as C. cbv zeta in C.
  rewrite Hu, Hfree, Hins, Hmail in C.
  set (row := {| r_id := nextResetId s; r_user := u_id u;
                 r_token := hashedToken cfg (plaintextToken issue);
                 r_expiredAt := newExpiry issue |}) in *.
  assert (Eusers : users issued = users s) by (subst issued; rewrite C; reflexivity).
  assert (L : resetById (nextResetId s) issued = Some row).
  { subst issued. rewrite C. unfold resetById. cbn [snd passwordResets].
    apply find_appended; [exact Hfresh | apply Z.eqb_refl]. }
  assert (Hin : In u (users s)).
  { unfold userByEmail in Hu. apply find_some in Hu as [Hin _]. exact Hin. }
  assert (A : exists owner, activeUserById (u_id u) issued = Some owner).
  { unfold activeUserById. rewrite Eusers.
    destruct (find _ (users s)) as [owner|] eqn:F; [exists owner; reflexivity|].
    exfalso. pose proof (find_none _ _ F u Hin) as N. cbv beta in N.
    rewrite Z.eqb_refl, Hlive in N. discriminate N. }
  destruct A as [owner A].
  destruct (activeUserById_found _ _ _ A) as (Hown & Hid & Hownlive).
  assert (R : out =
              (Ok {| message := "Password reset successfully" |},
               {| users := map (fun v => if u_id v =? u_id owner
                                         then withPassword owner digest else v)
                               (users issued);
                  passwordResets := passwordResets issued;
                  nextResetId := nextResetId issued;
                  outbox := outbox issued ++ [confirmation owner];
                  trace := (trace issued ++ [ResetFindOne (nextResetId s); ClockRead;
                                             UserGetOne (u_id u)])
                           ++ [Argon2Hash; UserSave (u_id owner);
                               SendMail (u_email owner)] |})).
  { subst out.
    rewrite (resetPassword_passes cfg redeem (nextResetId s) (plaintextToken issue)
               password issued row owner L eq_refl Hexp A).
    rewrite redemption_cases by exact Hown.
    rewrite Hh, Hs, Hm. reflexivity. }
  rewrite R. split; [reflexivity|].
  exists (withPassword owner digest). split; [|reflexivity].
  unfold activeUserById. cbn [snd users]. rewrite Hid.
  apply find_replaced; [exact Hid | exact Hownlive |].
  exists u. rewrite Eusers. auto.
Qed.

Lemma issued_link_redeems_witness :
  fst (resetPassword Scenario.cfg Scenario.at1030 (nextResetId Scenario.start)
         (plaintextToken Scenario.at10) "NewPass123!"
         (snd (forgotPassword Scenario.cfg Scenario.at10 "u1@example.com"
                 Scenario.start)))
  = Ok {| message := "Password reset successfully" |}.
Proof.
  apply (issued_link_redeems Scenario.cfg Scenario.at10 Scenario.at1030
           "u1@example.com" "NewPass123!" Scenario.start Scenario.u1
           "$argon2i$NewPass123!").
  - reflexivity.
  - reflexivity.
  - reflexivity.
  - reflexivity.
  - reflexivity.
  - reflexivity.
  - vm_compute. reflexivity.
  - vm_compute. reflexivity.
  - reflexivity.
  - reflexivity.
Defined.

(** * Further properties of the codec *)

Lemma hexDigit_code (d : Z) :
  0 <= d < 16 ->
  N_of_ascii (hexDigit d) = Z.to_N (if d <? 10 then 48 + d else 87 + d).
Proof.
  intros Hd. unfold hexDigit. apply N_ascii_embedding.
  destruct (Z.ltb_spec d 10); lia.
Qed.

Lemma hexDigit_lower (d : Z) : 0 <= d < 16 -> isLowerHex (hexDigit d) = true.
Proof.
  intros Hd. unfold isLowerHex. rewrite hexDigit_code by exact Hd.
  cbv zeta. apply orb_true_iff.
  destruct (Z.ltb_spec d 10); [left | right];
    apply andb_true_iff; split; apply N.leb_le; lia.
Qed.

Lemma hexDigit_inj (d e : Z) :
  0 <= d < 16 -> 0 <= e < 16 -> hexDigit d = hexDigit e -> d = e.
Proof.
  intros Hd He E. apply (f_equal N_of_ascii) in E.
  rewrite !hexDigit_code in E by assumption.
  destruct (Z.ltb_spec d 10), (Z.ltb_spec e 10); lia.
Qed.

Lemma toHex_lower (bs : list Z) : allLowerHex (toHex bs) = true.
Proof.
  unfold allLowerHex. induction bs as [|b rest IH]; [reflexivity|].
  cbn [toHex list_ascii_of_string forallb].
  rewrite !hexDigit_lower by (apply Z.mod_pos_bound; lia).
  exact IH.
Qed.

Lemma toHex_inj (a b : list Z) : bytes a -> bytes b -> toHex a = toHex b -> a = b.
Proof.
  intros Ha. revert b.
  induction Ha as [|x a Hx Ha IH]; intros b Hb E; destruct Hb as [|y b Hy Hb];
    cbn [toHex] in E; try discriminate E; [reflexivity|].
  injection E as Ehi Elo Erest.
  apply hexDigit_inj in Ehi; [|apply Z.mod_pos_bound; lia ..].
  apply hexDigit_inj in Elo; [|apply Z.mod_pos_bound; lia ..].
  f_equal; [|apply IH; assumption].
  rewrite (Z.div_mod x 16), (Z.div_mod y 16) by lia.
  rewrite (Z.mod_small (x / 16) 16) in Ehi
    by (split; [apply Z.div_pos; lia | apply Z.div_lt_upper_bound; lia]).
  rewrite (Z.mod_small (y / 16) 16) in Ehi
    by (split; [apply Z.div_pos; lia | apply Z.div_lt_upper_bound; lia]).
  congruence.
Qed.

(** X10.  When the random generator hands over the 32 bytes asked for, the
    token [plaintextToken] builds is 64 characters of lower-case hexadecimal. *)
Theorem plaintextToken_format (env : Env) :
  List.length (randomBytes env 32%nat) = 32%nat ->
  String.length (plaintextToken env) = 64%nat /\
  allLowerHex (plaintextToken env) = true.
Proof.
  intros L. unfold plaintextToken. split.
  - rewrite toHex_length, L. reflexivity.
  - apply toHex_lower.
Qed.

Lemma plaintextToken_format_witness :
  String.length (plaintextToken Scenario.at10) = 64%nat /\
  allLowerHex (plaintextToken Scenario.at10) = true.
Proof.
  apply (plaintextToken_format Scenario.at10). reflexivity.
Defined.

(** X11.  The hexadecimal rendering loses nothing of the random bytes: two
    different draws of bytes give two different tokens. *)
Theorem plaintextToken_injective (env env' : Env) :
  bytes (randomBytes env 32%nat) ->
  bytes (randomBytes env' 32%nat) ->
  randomBytes env 32%nat <> randomBytes env' 32%nat ->
  plaintextToken env <> plaintextToken env'.
Proof.
  intros B B' D E. apply D. unfold plaintextToken in E. exact (toHex_inj _ _ B B' E).
Qed.

Lemma plaintextToken_injective_witness :
  plaintextToken Scenario.at10 <> plaintextToken Scenario.at12.
Proof.
  apply (plaintextToken_injective Scenario.at10 Scenario.at12).
  - unfold bytes. apply Forall_forall. intros b Hb.
    apply in_map_iff in Hb as (i & <- & _). apply Z.mod_pos_bound. lia.
  - unfold bytes. apply Forall_forall. intros b Hb.
    apply in_map_iff in Hb as (i & <- & _). apply Z.mod_pos_bound. lia.
  - vm_compute. discriminate.
Defined.

(** X12.  Whatever the token and the secret, the digest [hashedToken] returns
    is 64 characters of lower-case hexadecimal: the recomputed digest and a
    digest stored by the service always have the same length. *)
Theorem hashedToken_format (cfg : Config) (token : string) :
  String.length (hashedToken cfg token) = 64%nat /\
  allLowerHex (hashedToken cfg token) = true.
Proof.
  split.
  - apply hashedToken_length.
  - unfold hashedToken. apply toHex_lower.
Qed.

(** * The reset link *)

Lemma append_inv_head (h a b : string) : (h ++ a)%string = (h ++ b)%string -> a = b.
Proof.
  induction h as [|c h IH]; simpl; intros E; [exact E|].
  injection E as E. apply IH. exact E.
Qed.

Lemma split_at_char (c : ascii) (a b x y : string) :
  ~ hasChar c a -> ~ hasChar c b ->
  (a ++ String c x)%string = (b ++ String c y)%string -> a = b /\ x = y.
Proof.
  unfold hasChar. revert b.
  induction a as [|d a IH]; intros [|e b] Ha Hb E; simpl in *.
  - injection E as E. auto.
  - injection E as Ec _. exfalso. apply Hb. left. congruence.
  - injection E as Ec _. exfalso. apply Ha. left. congruence.
  - injection E as Ed E.
    destruct (IH b) as [Eab Exy]; [tauto | tauto | exact E |].
    subst. auto.
Qed.

Lemma uint_no_ampersand (d : Decimal.uint) :
  ~ hasChar "&" (NilEmpty.string_of_uint d).
Proof.
  unfold hasChar. induction d; simpl; intros H;
    try (destruct H as [H|H]; [discriminate H | exact (IHd H)]).
  exact H.
Qed.

Lemma numberToString_no_ampersand (n : Z) : ~ hasChar "&" (numberToString n).
Proof.
  unfold numberToString, NilZero.string_of_int, NilZero.string_of_uint.
  destruct (Z.to_int n) as [d|d].
  - destruct d; try apply uint_no_ampersand.
    unfold hasChar. simpl. intros [H|[]]. discriminate H.
  - unfold hasChar. cbn [list_ascii_of_string]. intros [H|H]; [discriminate H|].
    revert H. destruct d; try apply uint_no_ampersand.
    simpl. intros [H|[]]. discriminate H.
Qed.

Lemma numberToString_inj (n m : Z) : numberToString n = numberToString m -> n = m.
Proof.
  unfold numberToString. intros E.
  assert (Proper : forall k, Z.to_int k <> Decimal.Pos Decimal.Nil /\
                             Z.to_int k <> Decimal.Neg Decimal.Nil).
  { intros [|p|p]; simpl; split; try discriminate;
      intros H; injection H as H; exact (Unsigned.to_uint_nonnil p H). }
  apply DecimalZ.to_int_inj.
  apply (f_equal NilZero.int_of_string) in E.
  rewrite !NilZero.isi in E by apply Proper.
  injection E as E. exact E.
Qed.

(** X13.  The reset link determines the request and the token: under one
    configuration, two links that differ in the id or in the token are
    different links. *)
Theorem url_injective (cfg : Config) (id id' : Z) (token token' : string) :
  id <> id' \/ token <> token' -> url cfg id token <> url cfg id' token'.
Proof.
  unfold url. intros D E.
  apply append_inv_head in E. apply append_inv_head in E.
  change ("&token=" ++ token)%string with (String "&" ("token=" ++ token)) in E.
  change ("&token=" ++ token')%string with (String "&" ("token=" ++ token')) in E.
  apply split_at_char in E as [En Et]; try apply numberToString_no_ampersand.
  apply numberToString_inj in En. apply append_inv_head in Et.
  destruct D as [D|D]; contradiction.
Qed.

Lemma url_injective_witness :
  url Scenario.cfg 1 Scenario.token10 <> url Scenario.cfg 2 Scenario.token10.
Proof.
  apply (url_injective Scenario.cfg 1 2 Scenario.token10 Scenario.token10).
  left. discriminate.
Defined.

(** * An invariant of the reset table *)

(** X14.  In every state the service reaches from an empty reset table, each
    stored digest is the HMAC, under the configured secret, of some token:
    the table holds nothing else, and so [resetPassword] never ends in the
    [RangeError] of the digest comparison. *)
Theorem reachable_digests (cfg : Config) (s : Sys) :
  reachable cfg s ->
  Forall (fun r => exists token, r_token r = hashedToken cfg token) (passwordResets s) /\
  forall env id token password c,
    fst (resetPassword cfg env id token password s) <> Throw (RangeError c).
Proof.
  intros R.
  assert (I : Forall (fun r => exists token, r_token r = hashedToken cfg token)
                (passwordResets s)).
  { induction R as [s E | env email s _ IH | env id token password s _ IH | s d _ IH].
    - rewrite E. constructor.
    - pose proof (forgotPassword_cases cfg env email s) as C. cbv zeta in C.
      destruct (userByEmail email s) as [u|]; [|rewrite C; exact IH].
      destruct (hasPending (localNow env) (u_id u) s); [rewrite C; exact IH|].
      destruct (insertFault env); [rewrite C; exact IH|].
      destruct (mailFault env); rewrite C; cbn [snd passwordResets];
        (apply Forall_app; split; [exact IH|]);
        (constructor; [eexists; reflexivity | constructor]).
    - rewrite resetPassword_keeps_requests. exact IH.
    - exact IH. }
  split; [exact I|].
  intros env id token password c E.
  pose proof (resetPassword_cases cfg env id token password s) as C. cbv zeta in C.
  destruct (resetById id s) as [r|] eqn:L; [|rewrite C in E; discriminate E].
  assert (W : (64 =? String.length (r_token r))%nat = true).
  { unfold resetById in L. apply find_some in L as [Hin _].
    rewrite Forall_forall in I. destruct (I r Hin) as [t ->].
    rewrite hashedToken_length. reflexivity. }
  rewrite W in C.
  destruct (hashedToken cfg token =? r_token r)%string;
    [|rewrite C in E; discriminate E].
  destruct (string_gt (r_expiredAt r) (localNow env));
    [|rewrite C in E; discriminate E].
  destruct (relationUser r s) as [owner|];
    [|rewrite C in E; discriminate E].
  destruct (activeUserById (r_user r) s) as [user|] eqn:A;
    [|rewrite C in E; discriminate E].
  destruct (activeUserById_found _ _ _ A) as (Hin & _).
  rewrite C in E.
  change {| to := u_email user; subject := "Password reset";
            text := "Your password was successfully reset" |}
    with (confirmation user) in E.
  rewrite redemption_cases in E by exact Hin.
  destruct (argon2 env password); [|discriminate E].
  destruct (userSaveFault env); [discriminate E|].
  destruct (mailFault env); discriminate E.
Qed.

Lemma reachable_digests_witness :
  fst (resetPassword Scenario.cfg Scenario.at1030 1 "c0ffee" "NewPass123!"
         (snd (forgotPassword Scenario.cfg Scenario.at10 "u1@example.com"
                 Scenario.start)))
  <> Throw (RangeError "ERR_CRYPTO_TIMING_SAFE_EQUAL_LENGTH").
Proof.
  apply (reachable_digests Scenario.cfg
           (snd (forgotPassword Scenario.cfg Scenario.at10 "u1@example.com"
                   Scenario.start))).
  apply reach_forgot. apply reach_init. reflexivity.
Defined.

(** * Failure of the password update, and asking twice *)

(** X15.  For a request that passes the checks, a failure of the password
    update fails the whole call and changes nothing: when argon2 rejects,
    its error comes out and the store is not even asked to write; when the
    write of the account is refused, the store's error comes out.  In both
    cases the accounts, the reset table and the outbox are as they were: no
    confirmation is mailed. *)
Theorem resetPassword_update_failure_no_effect
  (cfg : Config) (env : Env) (id : Z) (token password : string) (s : Sys)
  (r : PasswordResetEntity) (user : UserEntity) :
  resetById id s = Some r ->
  hashedToken cfg token = r_token r ->
  string_gt (r_expiredAt r) (localNow env) = true ->
  activeUserById (r_user r) s = Some user ->
  let out := resetPassword cfg env id token password s in
  (argon2 env password = None ->
   fst out = Throw (LibraryError "argon2") /\ unchanged s (snd out) /\
   trace (snd out)
   = trace s ++ [ResetFindOne id; ClockRead; UserGetOne (r_user r); Argon2Hash]) /\
  (forall digest c,
     argon2 env password = Some digest -> userSaveFault env = Some c ->
     fst out = Throw (QueryFailedError c) /\ unchanged s (snd out)).
Proof.
  intros L D X A out. subst out.
  destruct (activeUserById_found _ _ _ A) as (Hin & _).
  rewrite (resetPassword_passes cfg env id token password s r user L D X A).
  rewrite redemption_cases by exact Hin.
  split.
  - intros Hh. rewrite Hh. rewrite logged_logged. repeat split.
  - intros digest c Hh Hs. rewrite Hh, Hs. repeat split.
Qed.

Lemma resetPassword_update_failure_no_effect_witness :
  fst (resetPassword Scenario.cfg Scenario.argon2Down 1 Scenario.token10
         "NewPass123!" Scenario.issued) = Throw (LibraryError "argon2") /\
  unchanged Scenario.issued
    (snd (resetPassword Scenario.cfg Scenario.argon2Down 1 Scenario.token10
            "NewPass123!" Scenario.issued)).
Proof.
  destruct (resetPassword_update_failure_no_effect Scenario.cfg Scenario.argon2Down 1
              Scenario.token10 "NewPass123!" Scenario.issued
              {| r_id := 1; r_user := 1;
                 r_token := hashedToken Scenario.cfg Scenario.token10;
                 r_expiredAt := "2020-01-01T11:00:00.000+00:00" |}
              Scenario.u1) as (Hash & _).
  - vm_compute. reflexivity.
  - vm_compute. reflexivity.
  - vm_compute. reflexivity.
  - vm_compute. reflexivity.
  - destruct (Hash eq_refl) as (R & U & _). split; [exact R | exact U].
Defined.


